(** * MAE pre-training driver ([image/mae/main_pretrain.py])

    A shallow embedding of the orchestration script: the factories, the
    resume path, the learning-rate adjustment, the divergence check, the
    loss scaling with gradient accumulation, the checkpoint writer and the
    epoch/batch loop of [main].

    What the script delegates to torch, timm, colossalai and the MAE model
    is gathered in the [Framework] interface; the two helpers of [util/]
    that act on the optimizer (the rate adjustment and the loss scaler) are
    modelled from the specification. The process state is threaded explicitly; every call to a collaborator
    is appended to a journal, stamped with the loop position of its call
    site, so that the order and the number of calls can be stated. *)

From Stdlib Require Import ZArith List String Bool Lia SpecFloat DecimalString
  FinFun DecimalZ DecimalPos.
Import ListNotations.
Local Open Scope Z_scope.

(** ** Python values used by the script *)

Module Python.

(** A Python [float] is an IEEE-754 binary64 value. *)
Definition float : Type := spec_float.

Definition prec : Z := 53.
Definition emax : Z := 1024.

(** [math.isfinite]. *)
Definition isfinite (x : float) : bool :=
  match x with
  | S754_infinity _ | S754_nan => false
  | S754_zero _ | S754_finite _ _ _ => true
  end.

(** Conversion of an [int] operand of a float operation (exact for
    magnitudes up to 2^53, which covers batch and epoch counts). *)
Definition float_of_int (n : Z) : float := binary_normalize prec emax n 0 false.

Definition float_add (x y : float) : float := SFadd prec emax x y.
Definition float_div (x y : float) : float := SFdiv prec emax x y.

(** The exceptions that can leave [main]. *)
Inductive exception : Type :=
| SystemExit (code : Z)
| ZeroDivisionError.

(** The exit status of the process: 0 when [main] returns, the code of
    [sys.exit], and the interpreter's 1 for an uncaught exception. *)
Definition exit_status (o : option exception) : Z :=
  match o with
  | None => 0
  | Some (SystemExit code) => code
  | Some ZeroDivisionError => 1
  end.

(** [a % b] on ints: the sign follows the divisor, as [Z.modulo] does;
    a zero divisor raises. *)
Definition mod_ (a b : Z) : exception + Z :=
  if b =? 0 then inl ZeroDivisionError else inr (a mod b).

(** [a / b] on ints (true division). *)
Definition truediv (a b : Z) : exception + float :=
  if b =? 0 then inl ZeroDivisionError
  else inr (float_div (float_of_int a) (float_of_int b)).

(** [range(a, b)]. *)
Definition range (a b : Z) : list Z :=
  map (fun j => a + Z.of_nat j) (seq 0 (Z.to_nat (b - a))).

(** [enumerate(xs)]. *)
Definition enumerate {A : Type} (xs : list A) : list (Z * A) :=
  combine (map Z.of_nat (seq 0 (List.length xs))) xs.

(** [f"{n}"] for an int. *)
Definition str_int (n : Z) : string := NilZero.string_of_int (Z.to_int n).

(** A [pathlib.Path], as its components. *)
Definition Path : Type := list string.

(** [p / name] for a plain file name. *)
Definition joinpath (p : Path) (name : string) : Path := p ++ [name].

(** [str(p)]: the components, joined by the separator. *)
Definition str_path (p : Path) : string := String.concat "/" p.

End Python.

Import Python.

(** ** Opaque data of the collaborators *)

(** The data the script only passes along: it comes from torch, timm,
    colossalai and [models_mae]. *)
Class Opaque : Type := {
  tensor : Type;       (* a scalar loss tensor, with its autograd graph *)
  images : Type;       (* a batch of samples *)
  transform : Type;    (* transforms.Compose *)
  weights : Type;      (* model.state_dict() *)
  gradients : Type;    (* the .grad of the parameters *)
  moments : Type;      (* optimizer.state *)
  amp_state : Type;    (* loss_scaler.state_dict() *)
}.

Section DataModel.

Context {O : Opaque}.

(** The settings object ([gpc.config]); read-only after start-up. *)
Record Config : Type := {
  BATCH_SIZE : Z;
  LEARNING_RATE : float;
  MINIMUM_LEARNING_RATE : float;
  WEIGHT_DECAY : float;
  NUM_EPOCHS : Z;
  WARMUP_EPOCHS : Z;
  ACCUM_ITER : Z;
  MASK_RATIO : float;
  NORM_PIX_LOSS : bool;
  DATAPATH : Path;
  TRANSFORM_TRAIN : transform;
  TRANSFORM_VAL : transform;
  OUTPUT_DIR : option Path;     (* [None] is the falsy, unconfigured value *)
  CHECKPOINT_INTERVAL : Z;
  RESUME : bool;
  RESUME_ADDRESS : string;
  RESUME_START_EPOCH : Z;
  VERBOSE : bool;
}.

(** [datasets.ImageFolder(path, transform=transform)]. *)
Record Dataset : Type := {
  root : Path;
  dataset_transform : transform;
}.

(** The keyword arguments [get_dataloader] is called with. *)
Record DataLoader : Type := {
  dataset : Dataset;
  shuffle : bool;
  batch_size : Z;
  num_workers : Z;
  pin_memory : bool;
  drop_last : bool;
}.

Inductive Criterion : Type := CrossEntropyLoss.

(** One entry of [optimizer.param_groups]. *)
Record param_group : Type := {
  lr : float;
  weight_decay : float;
}.

(** A torch optimizer: what [optimizer.state_dict()] returns. *)
Record Optimizer : Type := {
  param_groups : list param_group;
  betas : float * float;
  opt_state : moments;
}.

(** The engine returned by [colossalai.initialize]. *)
Record Engine : Type := {
  engine_model : weights;
  engine_grad : gradients;
  engine_optimizer : Optimizer;
  engine_criterion : Criterion;
  training : bool;
}.

(** The namespace built by [deit_helper.lr_sched_args]. *)
Record sched_args : Type := {
  args_lr : float;
  args_min_lr : float;
  args_epochs : Z;
  args_warmup_epochs : Z;
}.

(** The namespace built by [deit_helper.load_model_args]. *)
Record load_args : Type := {
  args_resume : string;
  args_start_epoch : Z;
}.

(** The values stored in a checkpoint dictionary. *)
Inductive pyobj : Type :=
| ModelState (w : weights)
| OptimizerState (o : Optimizer)
| Int (n : Z)
| ScalerState (s : amp_state)
| ConfigObj (c : Config).

(** The dictionary handed to [torch.save], in insertion order. *)
Definition checkpoint : Type := list (string * pyobj).

(** *** The journal *)

(** Where in [main] a call is made. *)
Inductive site : Type :=
| Startup
| InEpoch (epoch : Z)
| InBatch (epoch : Z) (data_iter_step : Z)
| Teardown.

(** The calls to collaborators that the journal records. *)
Inductive call : Type :=
| LoggerInfo (msg : string)
| MiscLoadModel (args : load_args)
| EngineTrain
| EngineZeroGrad
| LrSchedAdjust (t : float) (args : sched_args)
| ModelForward (mask_ratio : float) (loss : tensor)
| PrintLoss (l : float)
| LossScaler (loss : tensor) (update_grad : bool)
| LossBackward (loss : tensor)
| OptimizerStep
| TorchSave (obj : checkpoint) (path : Path).

Definition entry : Type := site * call.

(** Module-level state of the process: the [VERBOSE] flag, and the
    instrumentation (journal and current loop position). *)
Record Globals : Type := {
  g_VERBOSE : bool;
  journal : list entry;
  here : site;
}.

(** The objects [main] owns while it trains. *)
Record World : Type := {
  globals : Globals;
  engine : Engine;
  loss_scaler : amp_state;
}.

Definition set_VERBOSE (v : bool) (g : Globals) : Globals :=
  {| g_VERBOSE := v; journal := journal g; here := here g |}.

Definition set_journal (j : list entry) (g : Globals) : Globals :=
  {| g_VERBOSE := g_VERBOSE g; journal := j; here := here g |}.

Definition set_here (s : site) (g : Globals) : Globals :=
  {| g_VERBOSE := g_VERBOSE g; journal := journal g; here := s |}.

Definition set_globals (g : Globals) (w : World) : World :=
  {| globals := g; engine := engine w; loss_scaler := loss_scaler w |}.

Definition set_engine (e : Engine) (w : World) : World :=
  {| globals := globals w; engine := e; loss_scaler := loss_scaler w |}.

Definition set_loss_scaler (s : amp_state) (w : World) : World :=
  {| globals := globals w; engine := engine w; loss_scaler := s |}.

Definition set_engine_model (m : weights) (e : Engine) : Engine :=
  {| engine_model := m; engine_grad := engine_grad e;
     engine_optimizer := engine_optimizer e;
     engine_criterion := engine_criterion e; training := training e |}.

Definition set_engine_grad (g : gradients) (e : Engine) : Engine :=
  {| engine_model := engine_model e; engine_grad := g;
     engine_optimizer := engine_optimizer e;
     engine_criterion := engine_criterion e; training := training e |}.

Definition set_engine_optimizer (o : Optimizer) (e : Engine) : Engine :=
  {| engine_model := engine_model e; engine_grad := engine_grad e;
     engine_optimizer := o;
     engine_criterion := engine_criterion e; training := training e |}.

Definition set_training (b : bool) (e : Engine) : Engine :=
  {| engine_model := engine_model e; engine_grad := engine_grad e;
     engine_optimizer := engine_optimizer e;
     engine_criterion := engine_criterion e; training := b |}.

Definition set_param_groups (gs : list param_group) (o : Optimizer) : Optimizer :=
  {| param_groups := gs; betas := betas o; opt_state := opt_state o |}.

Definition set_opt_state (s : moments) (o : Optimizer) : Optimizer :=
  {| param_groups := param_groups o; betas := betas o; opt_state := s |}.

Definition set_lr (r : float) (g : param_group) : param_group :=
  {| lr := r; weight_decay := weight_decay g |}.

End DataModel.

(** ** Operations of the collaborators *)

Class Framework {O : Opaque} : Type := {
  (* models_mae.mae_vit_large_patch16(norm_pix_loss=...) *)
  mae_vit_large_patch16 : bool -> weights;
  (* a model and an optimizer that have not run yet *)
  no_gradients : gradients;
  no_moments : moments;
  (* NativeScaler() *)
  new_scaler : amp_state;
  (* len(dataloader) *)
  loader_len : DataLoader -> nat;
  (* the samples of batch i in the pass over the loader made in an epoch *)
  fetch : DataLoader -> Z -> nat -> images;
  (* samples.cuda() *)
  cuda : images -> images;
  (* engine.model(samples, mask_ratio=...): the loss of the returned triple *)
  forward : weights -> images -> float -> tensor;
  (* loss.item() *)
  item : tensor -> float;
  (* loss /= k *)
  idiv : tensor -> Z -> tensor;
  (* scaler.scale(loss).backward(): gradients accumulate *)
  backward : amp_state -> tensor -> gradients -> gradients;
  (* unscale the gradients and optimizer.step() *)
  optimizer_step :
    amp_state -> list param_group -> gradients ->
    weights * moments -> weights * moments;
  (* scaler.update() *)
  scaler_update : amp_state -> gradients -> amp_state;
  (* util.lr_sched: the rate at a fractional epoch *)
  lr_schedule : float -> sched_args -> float;
  (* util.misc.load_model: reads the checkpoint at args.resume into the
     model, the optimizer and the scaler; its arguments are updated in
     place, the namespace included *)
  load_model :
    load_args -> weights * Optimizer * amp_state ->
    load_args * (weights * Optimizer * amp_state);
}.

(** ** A state monad with exceptions *)

Section Monad.

Context {S : Type}.

(** How a computation ends: normally, or by an exception that leaves it;
    the state reached is kept in both cases. *)
Inductive result (A : Type) : Type :=
| Normal (a : A) (s : S)
| Raised (e : exception) (s : S).

Definition M (A : Type) : Type := S -> result A.

Definition ret {A : Type} (a : A) : M A := fun s => Normal A a s.

Definition bind {A B : Type} (m : M A) (k : A -> M B) : M B :=
  fun s =>
    match m s with
    | Normal _ a s' => k a s'
    | Raised _ e s' => Raised B e s'
    end.

Definition raise {A : Type} (e : exception) : M A := fun s => Raised A e s.

Definition gets {A : Type} (f : S -> A) : M A := fun s => Normal A (f s) s.

Definition modify (f : S -> S) : M unit := fun s => Normal unit tt (f s).

(** A Python operation that may raise. *)
Definition lift_py {A : Type} (r : exception + A) : M A :=
  match r with
  | inl e => raise e
  | inr a => ret a
  end.

(** The state a computation ends in. *)
Definition final {A : Type} (r : result A) : S :=
  match r with
  | Normal _ _ s => s
  | Raised _ _ s => s
  end.

(** The exception that ended it, if any. *)
Definition raised {A : Type} (r : result A) : option exception :=
  match r with
  | Normal _ _ _ => None
  | Raised _ e _ => Some e
  end.

End Monad.

Arguments result : clear implicits.
Arguments M : clear implicits.
Arguments Normal {S A} a s.
Arguments Raised {S A} e s.

Notation "x <- c1 ;; c2" := (bind c1 (fun x => c2))
  (at level 61, c1 at next level, right associativity).
Notation "c1 ;; c2" := (bind c1 (fun _ => c2))
  (at level 61, right associativity).

(** [for x in xs: body(x)]; an exception in the body ends the loop. *)
Fixpoint for_each {S X : Type} (xs : list X) (body : X -> M S unit) : M S unit :=
  match xs with
  | [] => ret tt
  | x :: rest => body x ;; for_each rest body
  end.

(** ** The script *)

Section Script.

Context {O : Opaque} {F : Framework}.

(** *** Instrumentation and the calls to collaborators *)

(** Append a call to the journal, stamped with the current position. *)
Definition record (c : call) : M Globals unit :=
  modify (fun g => set_journal (journal g ++ [(here g, c)]) g).

(** Move the position stamp. *)
Definition at_site (s : site) : M Globals unit := modify (set_here s).

(** Run a computation on the module-level state from within [main]. *)
Definition in_globals {A : Type} (m : M Globals A) : M World A :=
  fun w =>
    match m (globals w) with
    | Normal a g => Normal a (set_globals g w)
    | Raised e g => Raised e (set_globals g w)
    end.

(** The scope of the objects that [main] creates. *)
Definition with_objects {A : Type} (e : Engine) (s : amp_state)
    (m : M World A) : M Globals A :=
  fun g =>
    match m {| globals := g; engine := e; loss_scaler := s |} with
    | Normal a w => Normal a (globals w)
    | Raised x w => Raised x (globals w)
    end.

(** [LOGGER.info(...)]; the journal keeps the fixed part of the message. *)
Definition LOGGER_info (msg : string) : M Globals unit :=
  record (LoggerInfo msg).

(** [if VERBOSE: ...]. *)
Definition if_VERBOSE (m : M Globals unit) : M Globals unit :=
  v <- gets g_VERBOSE ;;
  if v then m else ret tt.

(** [timm.optim.optim_factory.add_weight_decay(model, weight_decay)]: two
    groups over the parameters of the model, without decay for biases and
    norm layers and with [weight_decay] for the rest. The parameters stay
    with the model; a group keeps its settings. *)
Definition add_weight_decay (model : weights) (wd : float)
    : list (float -> param_group) :=
  [ (fun r => {| lr := r; weight_decay := S754_zero false |});
    (fun r => {| lr := r; weight_decay := wd |}) ].

(** [torch.optim.AdamW(param_groups, lr=..., betas=...)]. *)
Definition AdamW (groups : list (float -> param_group)) (rate : float)
    (b : float * float) : Optimizer :=
  {| param_groups := map (fun g => g rate) groups;
     betas := b;
     opt_state := no_moments |}.

(** 0.9 and 0.95 as binary64 values. *)
Definition beta1 : float := S754_finite false 8106479329266893 (-53).
Definition beta2 : float := S754_finite false 8556839292003942 (-53).

(** [colossalai.utils.get_dataloader]. *)
Definition get_dataloader (d : Dataset) (sh : bool) (bs nw : Z) (pm dl : bool)
    : DataLoader :=
  {| dataset := d; shuffle := sh; batch_size := bs; num_workers := nw;
     pin_memory := pm; drop_last := dl |}.

(** [colossalai.initialize]: the engine bundles the model, the optimizer
    and the criterion; the loaders are handed back. *)
Definition colossalai_initialize (m : weights) (o : Optimizer) (c : Criterion)
    (train test : DataLoader) : Engine * DataLoader * DataLoader :=
  ({| engine_model := m; engine_grad := no_gradients; engine_optimizer := o;
      engine_criterion := c; training := false |}, train, test).

(** [engine.train()]. *)
Definition engine_train : M World unit :=
  in_globals (record EngineTrain) ;;
  modify (fun w => set_engine (set_training true (engine w)) w).

(** [engine.zero_grad()]. *)
Definition engine_zero_grad : M World unit :=
  in_globals (record EngineZeroGrad) ;;
  modify (fun w => set_engine (set_engine_grad no_gradients (engine w)) w).

(** [engine.model(samples, mask_ratio=...)]. *)
Definition engine_model_call (samples : images) (mask_ratio : float)
    : M World tensor :=
  m <- gets (fun w => engine_model (engine w)) ;;
  let loss := forward m samples mask_ratio in
  in_globals (record (ModelForward mask_ratio loss)) ;;
  ret loss.

(** [for ... in enumerate(tqdm(train_dataloader))]: the batches of the
    pass made in [epoch]; the labels are dropped. *)
Definition batches (train_dataloader : DataLoader) (epoch : Z)
    : list (Z * images) :=
  enumerate (map (fetch train_dataloader epoch)
                 (seq 0 (loader_len train_dataloader))).

(** Modelled from the spec: [util.lr_sched.adjust_learning_rate], which
    is not under src/. "Pure function of (current fractional-epoch
    position, base learning rate, minimum learning rate, total epochs,
    warmup epochs) -> scalar rate. Applies the result uniformly to every
    optimizer parameter group." *)
Definition lr_sched_adjust_learning_rate (t : float) (args : sched_args)
    : M World unit :=
  in_globals (record (LrSchedAdjust t args)) ;;
  let rate := lr_schedule t args in
  modify (fun w =>
    let e := engine w in
    let o := engine_optimizer e in
    set_engine
      (set_engine_optimizer
         (set_param_groups (map (set_lr rate) (param_groups o)) o) e) w).

(** Modelled from the spec: [NativeScalerWithGradNormCount.__call__] of
    [util/misc.py], which is not under src/. "Invoke the mixed-precision
    scaler, which performs the backward pass and conditionally steps the
    optimizer"; the step and the scaler update happen only when
    [update_grad] holds. The optimizer and the parameters it is given are
    the engine's own. *)
Definition NativeScaler_call (loss : tensor) (update_grad : bool) : M World unit :=
  in_globals (record (LossScaler loss update_grad)) ;;
  in_globals (record (LossBackward loss)) ;;
  modify (fun w =>
    let e := engine w in
    set_engine
      (set_engine_grad (backward (loss_scaler w) loss (engine_grad e)) e) w) ;;
  if update_grad then
    in_globals (record OptimizerStep) ;;
    modify (fun w =>
      let e := engine w in
      let o := engine_optimizer e in
      let '(m', s') :=
        optimizer_step (loss_scaler w) (param_groups o) (engine_grad e)
                       (engine_model e, opt_state o) in
      set_loss_scaler (scaler_update (loss_scaler w) (engine_grad e))
        (set_engine
           (set_engine_model m' (set_engine_optimizer (set_opt_state s' o) e))
           w))
  else ret tt.

(** [misc.load_model(args=..., model_without_ddp=engine.model,
    optimizer=engine.optimizer, loss_scaler=loss_scaler)]: the objects it
    is given are updated in place; the namespace is handed back as the
    callee left it. *)
Definition misc_load_model (args : load_args) : M World load_args :=
  in_globals (record (MiscLoadModel args)) ;;
  w <- gets (fun w => w) ;;
  let e := engine w in
  let '(args', (m', o', s')) :=
    load_model args (engine_model e, engine_optimizer e, loss_scaler w) in
  modify (fun w =>
    set_loss_scaler s'
      (set_engine (set_engine_model m' (set_engine_optimizer o' e)) w)) ;;
  ret args'.

(** [torch.save(obj, path)]. *)
Definition torch_save (obj : checkpoint) (path : Path) : M Globals unit :=
  record (TorchSave obj path).

(** *** The functions of [main_pretrain.py] *)

Definition _load_imgfolder (path : Path) (t : transform) : Dataset :=
  {| root := path; dataset_transform := t |}.

Definition model (norm_pix_loss : bool) : M Globals weights :=
  let m := mae_vit_large_patch16 norm_pix_loss in
  if_VERBOSE (LOGGER_info "Use model vit_large_patch16"%string) ;;
  ret m.

Definition criterion : M Globals Criterion :=
  let c := CrossEntropyLoss in
  if_VERBOSE (LOGGER_info "Criterion:"%string) ;;
  ret c.

Definition optimizer (model : weights) (learning_rate weight_decay : float)
    : M Globals Optimizer :=
  let param_groups := add_weight_decay model weight_decay in
  let o := AdamW param_groups learning_rate (beta1, beta2) in
  if_VERBOSE (LOGGER_info "Optimizer:"%string) ;;
  ret o.

(** [gpc.config] is the configuration [main] works with; it is passed
    as [config]. *)
Definition pretrain_dataloaders (config : Config) (datapath : Path)
    (transform_train transform_val : transform)
    : M Globals (DataLoader * DataLoader) :=
  if_VERBOSE (LOGGER_info "DATAPATH:"%string) ;;
  let train_dataset := _load_imgfolder (joinpath datapath "train"%string) transform_train in
  let test_dataset := _load_imgfolder (joinpath datapath "val"%string) transform_val in
  if_VERBOSE (LOGGER_info "Train dataset:"%string ;; LOGGER_info "Test dataset:"%string) ;;
  let train_dataloader :=
    get_dataloader train_dataset true (BATCH_SIZE config) 1 true true in
  let test_dataloader :=
    get_dataloader train_dataset true (BATCH_SIZE config) 1 true false in
  ret (train_dataloader, test_dataloader).

Definition init_global_states (config : Config) : M Globals unit :=
  modify (set_VERBOSE (VERBOSE config)).

Definition init_engine (config : Config)
    : M Globals (Engine * DataLoader * DataLoader) :=
  _model <- model (NORM_PIX_LOSS config) ;;
  _optimizer <- optimizer _model (LEARNING_RATE config) (WEIGHT_DECAY config) ;;
  _criterion <- criterion ;;
  loaders <- pretrain_dataloaders config (DATAPATH config)
               (TRANSFORM_TRAIN config) (TRANSFORM_VAL config) ;;
  let '(train_dataloader, test_dataloader) := loaders in
  ret (colossalai_initialize _model _optimizer _criterion
         train_dataloader test_dataloader).

Definition resume_model (config : Config) : M World Z :=
  let args :=
    {| args_resume := RESUME_ADDRESS config;
       args_start_epoch := RESUME_START_EPOCH config |} in
  args <- misc_load_model args ;;
  in_globals (if_VERBOSE (LOGGER_info "Resume model from"%string)) ;;
  ret (args_start_epoch args).

Definition adjust_learning_rate (data_iter_step : Z)
    (train_dataloader : DataLoader) (epoch : Z) (config : Config)
    : M World unit :=
  let args :=
    {| args_lr := LEARNING_RATE config;
       args_min_lr := MINIMUM_LEARNING_RATE config;
       args_epochs := NUM_EPOCHS config;
       args_warmup_epochs := WARMUP_EPOCHS config |} in
  q <- lift_py (truediv data_iter_step (Z.of_nat (loader_len train_dataloader))) ;;
  lr_sched_adjust_learning_rate (float_add q (float_of_int epoch)) args.

(** [sys] is bound by the [__main__] block before [main] is called. *)
Definition exit_if_infinite_loss (l : float) : M World unit :=
  if negb (isfinite l) then
    in_globals (record (PrintLoss l)) ;;
    raise (SystemExit 1)
  else ret tt.

Definition scale_loss (loss : tensor) (data_iter_step : Z) (config : Config)
    : M World unit :=
  let loss := idiv loss (ACCUM_ITER config) in
  r <- lift_py (mod_ (data_iter_step + 1) (ACCUM_ITER config)) ;;
  NativeScaler_call loss (r =? 0).

Definition save_model (model : weights) (output_dir : Path) (epoch : Z)
    (config : Config) (optimizer : Optimizer) (loss_scaler : amp_state)
    : M Globals unit :=
  let checkpoint_path :=
    joinpath output_dir ("checkpoint-" ++ str_int epoch ++ ".pth")%string in
  torch_save
    [ ("model"%string, ModelState model);
      ("optimizer"%string, OptimizerState optimizer);
      ("epoch"%string, Int epoch);
      ("scaler"%string, ScalerState loss_scaler);
      ("config"%string, ConfigObj config) ]
    checkpoint_path.

(** The body of the loop over the batches (lines 198-211). *)
Definition batch_body (config : Config) (train_dataloader : DataLoader)
    (epoch : Z) (it : Z * images) : M World unit :=
  let '(data_iter_step, samples) := it in
  in_globals (at_site (InBatch epoch data_iter_step)) ;;
  r <- lift_py (mod_ data_iter_step (ACCUM_ITER config)) ;;
  (if r =? 0 then
     adjust_learning_rate data_iter_step train_dataloader epoch config
   else ret tt) ;;
  let samples := cuda samples in
  loss <- engine_model_call samples (MASK_RATIO config) ;;
  let loss_value := item loss in
  exit_if_infinite_loss loss_value ;;
  scale_loss loss data_iter_step config ;;
  r <- lift_py (mod_ (data_iter_step + 1) (ACCUM_ITER config)) ;;
  if r =? 0 then engine_zero_grad else ret tt.

(** The checkpoint decision at the end of an epoch (lines 213-223). *)
Definition epoch_checkpoint (config : Config) (epoch : Z) : M World unit :=
  match OUTPUT_DIR config with
  | Some output_dir =>
      r <- lift_py (mod_ epoch (CHECKPOINT_INTERVAL config)) ;;
      if (r =? 0) || (epoch + 1 =? NUM_EPOCHS config) then
        w <- gets (fun w => w) ;;
        in_globals
          (save_model (engine_model (engine w)) output_dir epoch config
             (engine_optimizer (engine w)) (loss_scaler w))
      else ret tt
  | None => ret tt
  end.

(** The body of the loop over the epochs (lines 195-223). *)
Definition epoch_body (config : Config) (train_dataloader : DataLoader)
    (epoch : Z) : M World unit :=
  in_globals (at_site (InEpoch epoch)) ;;
  engine_train ;;
  engine_zero_grad ;;
  for_each (batches train_dataloader epoch)
    (batch_body config train_dataloader epoch) ;;
  in_globals (at_site (InEpoch epoch)) ;;
  epoch_checkpoint config epoch.

(** What [main] does once the engine and the scaler exist (lines 188-228). *)
Definition train (config : Config) (train_dataloader : DataLoader)
    : M World unit :=
  start_epoch <- (if RESUME config then resume_model config else ret 0) ;;
  in_globals (LOGGER_info "Start pre-training for"%string) ;;
  for_each (range start_epoch (NUM_EPOCHS config))
    (epoch_body config train_dataloader) ;;
  in_globals (at_site Teardown ;; LOGGER_info "Training time"%string).

(** [main(config_path)], for the configuration that
    [colossalai.launch_from_torch] loads from [config_path]. *)
Definition main (config : Config) : M Globals unit :=
  init_global_states config ;;
  built <- init_engine config ;;
  let '(engine, train_dataloader, test_dataloader) := built in
  let loss_scaler := new_scaler in
  with_objects engine loss_scaler (train config train_dataloader).

(** The process as it starts: [VERBOSE = False], nothing called yet. *)
Definition process_start : Globals :=
  {| g_VERBOSE := false; journal := []; here := Startup |}.

(** A run of the script. *)
Definition run (config : Config) : result Globals unit :=
  main config process_start.

End Script.

(** ** The shape of a run *)

(** The journal of a loop is the concatenation of the journals of its
    iterations; it stops at the first iteration that raises. [step x t o]
    reads: iteration [x] appends [t] and ends with [o]. *)
Inductive loop_run {E X : Type} (step : X -> list E -> option exception -> Prop)
    : list X -> list E -> option exception -> Prop :=
| loop_done : loop_run step [] [] None
| loop_next x rest t1 t2 o :
    step x t1 None -> loop_run step rest t2 o ->
    loop_run step (x :: rest) (t1 ++ t2) o
| loop_stop x rest t e :
    step x t (Some e) -> loop_run step (x :: rest) t (Some e).

Section Shape.

Context {O : Opaque} {F : Framework}.

Variable config : Config.
Variable train_dataloader : DataLoader.

(** The namespace [adjust_learning_rate] builds. *)
Definition schedule_args : sched_args :=
  {| args_lr := LEARNING_RATE config;
     args_min_lr := MINIMUM_LEARNING_RATE config;
     args_epochs := NUM_EPOCHS config;
     args_warmup_epochs := WARMUP_EPOCHS config |}.

(** [data_iter_step / len(train_dataloader) + epoch]. *)
Definition epoch_position (epoch data_iter_step : Z) : float :=
  float_add
    (float_div (float_of_int data_iter_step)
               (float_of_int (Z.of_nat (loader_len train_dataloader))))
    (float_of_int epoch).

(** The calls of one batch, in order: the rate adjustment, ... *)
Definition lr_calls (epoch i : Z) : list entry :=
  if i mod ACCUM_ITER config =? 0 then
    [(InBatch epoch i, LrSchedAdjust (epoch_position epoch i) schedule_args)]
  else [].

(** ... the forward pass, ... *)
Definition forward_call (epoch i : Z) (loss : tensor) : entry :=
  (InBatch epoch i, ModelForward (MASK_RATIO config) loss).

(** ... and, for a finite loss, the scaler and what follows a step. *)
Definition update_calls (epoch i : Z) (loss : tensor) : list entry :=
  let update_grad := (i + 1) mod ACCUM_ITER config =? 0 in
  let scaled := idiv loss (ACCUM_ITER config) in
  [(InBatch epoch i, LossScaler scaled update_grad);
   (InBatch epoch i, LossBackward scaled)]
  ++ (if update_grad then
        [(InBatch epoch i, OptimizerStep); (InBatch epoch i, EngineZeroGrad)]
      else []).

(** One batch. *)
Inductive batch_run (epoch i : Z) : list entry -> option exception -> Prop :=
| batch_zero_division :
    ACCUM_ITER config = 0 ->
    batch_run epoch i [] (Some ZeroDivisionError)
| batch_diverged loss :
    ACCUM_ITER config <> 0 ->
    isfinite (item loss) = false ->
    batch_run epoch i
      (lr_calls epoch i
       ++ [forward_call epoch i loss; (InBatch epoch i, PrintLoss (item loss))])
      (Some (SystemExit 1))
| batch_trained loss :
    ACCUM_ITER config <> 0 ->
    isfinite (item loss) = true ->
    batch_run epoch i
      (lr_calls epoch i ++ forward_call epoch i loss :: update_calls epoch i loss)
      None.

(** The batch indices of an epoch. *)
Definition steps : list Z :=
  map Z.of_nat (seq 0 (loader_len train_dataloader)).

(** The condition of lines 213-215. *)
Definition checkpoint_due (epoch : Z) : exception + bool :=
  match OUTPUT_DIR config with
  | Some _ =>
      match mod_ epoch (CHECKPOINT_INTERVAL config) with
      | inl e => inl e
      | inr r => inr ((r =? 0) || (epoch + 1 =? NUM_EPOCHS config))
      end
  | None => inr false
  end.

(** The dictionary and the path of [save_model]. *)
Definition checkpoint_of (m : weights) (epoch : Z) (o : Optimizer)
    (s : amp_state) : checkpoint :=
  [ ("model"%string, ModelState m);
    ("optimizer"%string, OptimizerState o);
    ("epoch"%string, Int epoch);
    ("scaler"%string, ScalerState s);
    ("config"%string, ConfigObj config) ].

Definition checkpoint_path (output_dir : Path) (epoch : Z) : Path :=
  joinpath output_dir ("checkpoint-" ++ str_int epoch ++ ".pth")%string.

Definition epoch_start (epoch : Z) : list entry :=
  [(InEpoch epoch, EngineTrain); (InEpoch epoch, EngineZeroGrad)].

(** One epoch. *)
Inductive epoch_run (epoch : Z) : list entry -> option exception -> Prop :=
| epoch_interrupted t e :
    loop_run (batch_run epoch) steps t (Some e) ->
    epoch_run epoch (epoch_start epoch ++ t) (Some e)
| epoch_checkpoint_raises t e :
    loop_run (batch_run epoch) steps t None ->
    checkpoint_due epoch = inl e ->
    epoch_run epoch (epoch_start epoch ++ t) (Some e)
| epoch_not_saved t :
    loop_run (batch_run epoch) steps t None ->
    checkpoint_due epoch = inr false ->
    epoch_run epoch (epoch_start epoch ++ t) None
| epoch_saved t output_dir m o s :
    loop_run (batch_run epoch) steps t None ->
    checkpoint_due epoch = inr true ->
    OUTPUT_DIR config = Some output_dir ->
    epoch_run epoch
      (epoch_start epoch ++ t
       ++ [(InEpoch epoch,
            TorchSave (checkpoint_of m epoch o s)
                      (checkpoint_path output_dir epoch))])
      None.

(** The epochs from [start_epoch] on. *)
Definition epochs_run (start_epoch : Z)
    : list entry -> option exception -> Prop :=
  loop_run epoch_run (range start_epoch (NUM_EPOCHS config)).

End Shape.

Section Startup.

Context {O : Opaque} {F : Framework}.

Variable config : Config.

(** What [init_engine] builds. *)
Definition built_optimizer : Optimizer :=
  AdamW (add_weight_decay (mae_vit_large_patch16 (NORM_PIX_LOSS config))
                          (WEIGHT_DECAY config))
        (LEARNING_RATE config) (beta1, beta2).

Definition built_train_dataset : Dataset :=
  _load_imgfolder (joinpath (DATAPATH config) "train") (TRANSFORM_TRAIN config).

Definition built_val_dataset : Dataset :=
  _load_imgfolder (joinpath (DATAPATH config) "val") (TRANSFORM_VAL config).

Definition built_train_dataloader : DataLoader :=
  get_dataloader built_train_dataset true (BATCH_SIZE config) 1 true true.

Definition built_test_dataloader : DataLoader :=
  get_dataloader built_train_dataset true (BATCH_SIZE config) 1 true false.

Definition built_engine : Engine :=
  fst (fst (colossalai_initialize
              (mae_vit_large_patch16 (NORM_PIX_LOSS config))
              built_optimizer CrossEntropyLoss
              built_train_dataloader built_test_dataloader)).

(** The epoch [main] starts from (lines 188-190). *)
Definition start_epoch : Z :=
  if RESUME config then
    args_start_epoch
      (fst (load_model
              {| args_resume := RESUME_ADDRESS config;
                 args_start_epoch := RESUME_START_EPOCH config |}
              (engine_model built_engine, engine_optimizer built_engine,
               new_scaler)))
  else 0.

End Startup.

(** ** Reading a journal *)

Section Reading.

Context {O : Opaque}.

(** The epochs entered, in order: one [engine.train()] each. *)
Fixpoint epochs_entered (j : list entry) : list Z :=
  match j with
  | [] => []
  | (InEpoch e, EngineTrain) :: rest => e :: epochs_entered rest
  | _ :: rest => epochs_entered rest
  end.

(** Is this entry an optimizer step made in [epoch]? *)
Definition is_step_of (epoch : Z) (x : entry) : bool :=
  match x with
  | (InBatch e _, OptimizerStep) => e =? epoch
  | _ => false
  end.

(** The number of optimizer steps made in [epoch]. *)
Definition steps_taken (epoch : Z) (j : list entry) : nat :=
  List.length (filter (is_step_of epoch) j).



(** [a] and [b] are consecutive entries of [j]. *)
Definition consecutive (a b : entry) (j : list entry) : Prop :=
  exists before after, j = before ++ a :: b :: after.

(** The entry was recorded during [epoch]. *)
Definition in_epoch (epoch : Z) (x : entry) : Prop :=
  match fst x with
  | InEpoch e | InBatch e _ => e = epoch
  | Startup | Teardown => False
  end.

(** What a run appends after the epochs. *)
Definition teardown (o : option exception) : list entry :=
  match o with
  | None => [(Teardown, LoggerInfo "Training time")]
  | Some _ => []
  end.

(** What a run records before the first epoch: log lines and the resume. *)
Definition startup_entry (x : entry) : Prop :=
  fst x = Startup
  /\ match snd x with
     | LoggerInfo _ | MiscLoadModel _ => True
     | _ => False
     end.

End Reading.

(** ** A concrete framework *)

(** Tensors are their scalar value, a batch is the loss it yields, and the
    mutable parts count what was done to them. *)
Definition scalar_data : Opaque :=
  {| tensor := float; images := float; transform := string;
     weights := nat; gradients := nat; moments := nat; amp_state := nat |}.

(** The linear warm-up of the schedule; past the warm-up the sample
    schedule holds the minimum rate. *)
Definition warmup_ramp (t : float) (a : @sched_args) : float :=
  if SFltb t (float_of_int (args_warmup_epochs a)) then
    float_div (SFmul prec emax (args_lr a) t)
              (float_of_int (args_warmup_epochs a))
  else args_min_lr a.

Definition scalar_framework (len : nat) (loss_of : Z -> nat -> float)
    : @Framework scalar_data :=
  {| mae_vit_large_patch16 := fun _ => 0%nat : @weights scalar_data;
     no_gradients := 0%nat : @gradients scalar_data;
     no_moments := 0%nat : @moments scalar_data;
     new_scaler := 0%nat : @amp_state scalar_data;
     loader_len := fun _ => len;
     fetch := fun _ e i => loss_of e i : @images scalar_data;
     cuda := fun x => x;
     forward := fun _ x _ => x : @tensor scalar_data;
     item := fun (l : @tensor scalar_data) => l : float;
     idiv := fun (l : @tensor scalar_data) k =>
               float_div l (float_of_int k) : @tensor scalar_data;
     backward := fun _ _ (g : @gradients scalar_data) =>
                   Datatypes.S g : @gradients scalar_data;
     optimizer_step := fun _ _ _ '(w, m) => (Datatypes.S w, Datatypes.S m);
     scaler_update := fun (s : @amp_state scalar_data) _ => Datatypes.S s;
     lr_schedule := warmup_ramp;
     load_model := fun a x => (a, x) |}.

(** ** Journals of computations *)

Section Appends.

Context {O : Opaque}.

(** [m] only appends to the journal, and what it appends, together with
    the way it ends, satisfies [R]. *)
Definition appends {A : Type} (m : M World A)
    (R : list entry -> option exception -> Prop) : Prop :=
  forall w, exists t,
    journal (globals (final (m w))) = journal (globals w) ++ t
    /\ R t (raised (m w)).

End Appends.

(** ** Sample runs *)

(** 1.0 and 0.75 as binary64 values. *)
Definition one : float := S754_finite false 4503599627370496 (-52).
Definition three_quarters : float := S754_finite false 6755399441055744 (-53).

(** Three epochs of three batches, windows of two batches, a checkpoint
    every second epoch. *)
Definition sample_config : @Config scalar_data :=
  {| BATCH_SIZE := 8;
     LEARNING_RATE := one;
     MINIMUM_LEARNING_RATE := S754_zero false;
     WEIGHT_DECAY := three_quarters;
     NUM_EPOCHS := 3;
     WARMUP_EPOCHS := 1;
     ACCUM_ITER := 2;
     MASK_RATIO := three_quarters;
     NORM_PIX_LOSS := true;
     DATAPATH := ["data"%string];
     TRANSFORM_TRAIN := "train"%string : @transform scalar_data;
     TRANSFORM_VAL := "val"%string : @transform scalar_data;
     OUTPUT_DIR := Some ["out"%string];
     CHECKPOINT_INTERVAL := 2;
     RESUME := false;
     RESUME_ADDRESS := "out/checkpoint-0.pth";
     RESUME_START_EPOCH := 1;
     VERBOSE := false |}.

(** The same, resumed. *)
Definition resumed_config : @Config scalar_data :=
  {| BATCH_SIZE := 8;
     LEARNING_RATE := one;
     MINIMUM_LEARNING_RATE := S754_zero false;
     WEIGHT_DECAY := three_quarters;
     NUM_EPOCHS := 3;
     WARMUP_EPOCHS := 1;
     ACCUM_ITER := 2;
     MASK_RATIO := three_quarters;
     NORM_PIX_LOSS := true;
     DATAPATH := ["data"%string];
     TRANSFORM_TRAIN := "train"%string : @transform scalar_data;
     TRANSFORM_VAL := "val"%string : @transform scalar_data;
     OUTPUT_DIR := Some ["out"%string];
     CHECKPOINT_INTERVAL := 2;
     RESUME := true;
     RESUME_ADDRESS := "out/checkpoint-0.pth";
     RESUME_START_EPOCH := 1;
     VERBOSE := true |}.

(** Every batch yields the loss 1.0. *)
Definition steady : @Framework scalar_data :=
  scalar_framework 3 (fun _ _ => one).

(** The second batch of the second epoch yields NaN. *)
Definition diverging : @Framework scalar_data :=
  scalar_framework 3
    (fun e i => if (e =? 1) && (Nat.eqb i 1) then S754_nan else one).

(** The objects of [main] before the first epoch of the sample. *)
Definition sample_world : @World scalar_data :=
  {| globals := process_start;
     engine := @built_engine scalar_data steady sample_config;
     loss_scaler := @new_scaler scalar_data steady |}.

(** ** More to read from a journal *)

Section MoreReading.

Context {O : Opaque}.

(** The log lines of the factories, written when [VERBOSE] is set. *)
Definition factory_log : list entry :=
  map (fun msg => (Startup, LoggerInfo msg))
    [ "Use model vit_large_patch16"%string; "Optimizer:"%string;
      "Criterion:"%string; "DATAPATH:"%string; "Train dataset:"%string;
      "Test dataset:"%string ].

(** What [resume_model] records. *)
Definition resume_calls (config : Config) : list entry :=
  (Startup,
   MiscLoadModel {| args_resume := RESUME_ADDRESS config;
                    args_start_epoch := RESUME_START_EPOCH config |})
  :: (if VERBOSE config then [(Startup, LoggerInfo "Resume model from")]
      else []).

(** Everything a run records before its first epoch. *)
Definition startup_calls (config : Config) : list entry :=
  (if VERBOSE config then factory_log else [])
  ++ (if RESUME config then resume_calls config else [])
  ++ [(Startup, LoggerInfo "Start pre-training for")].

(** The batch of [epoch] an entry was recorded in, for the calls that
    satisfy [p]. *)
Definition batch_index_in (p : call -> bool) (epoch : Z) (x : entry)
    : option Z :=
  match fst x with
  | InBatch e i => if (e =? epoch) && p (snd x) then Some i else None
  | _ => None
  end.

(** The batches of [epoch] that made a call satisfying [p], in the order
    of the journal and with repetitions. *)
Fixpoint batches_where (p : call -> bool) (epoch : Z) (j : list entry)
    : list Z :=
  match j with
  | [] => []
  | x :: rest =>
      match batch_index_in p epoch x with
      | Some i => i :: batches_where p epoch rest
      | None => batches_where p epoch rest
      end
  end.

Definition is_forward (c : call) : bool :=
  match c with ModelForward _ _ => true | _ => false end.

Definition is_scaler_call (c : call) : bool :=
  match c with LossScaler _ _ => true | _ => false end.

Definition is_lr_adjustment (c : call) : bool :=
  match c with LrSchedAdjust _ _ => true | _ => false end.

(** The configuration with another checkpoint interval. *)
Definition with_CHECKPOINT_INTERVAL (c : Z) (config : Config) : Config :=
  {| BATCH_SIZE := BATCH_SIZE config;
     LEARNING_RATE := LEARNING_RATE config;
     MINIMUM_LEARNING_RATE := MINIMUM_LEARNING_RATE config;
     WEIGHT_DECAY := WEIGHT_DECAY config;
     NUM_EPOCHS := NUM_EPOCHS config;
     WARMUP_EPOCHS := WARMUP_EPOCHS config;
     ACCUM_ITER := ACCUM_ITER config;
     MASK_RATIO := MASK_RATIO config;
     NORM_PIX_LOSS := NORM_PIX_LOSS config;
     DATAPATH := DATAPATH config;
     TRANSFORM_TRAIN := TRANSFORM_TRAIN config;
     TRANSFORM_VAL := TRANSFORM_VAL config;
     OUTPUT_DIR := OUTPUT_DIR config;
     CHECKPOINT_INTERVAL := c;
     RESUME := RESUME config;
     RESUME_ADDRESS := RESUME_ADDRESS config;
     RESUME_START_EPOCH := RESUME_START_EPOCH config;
     VERBOSE := VERBOSE config |}.

End MoreReading.

(** ** More sample runs *)

(** The sample with its window, checkpoint interval, number of epochs,
    output directory and flags chosen. *)
Definition sample_with (accum_iter interval epochs : Z)
    (output_dir : option Path) (resume verbose : bool)
    : @Config scalar_data :=
  {| BATCH_SIZE := 8;
     LEARNING_RATE := one;
     MINIMUM_LEARNING_RATE := S754_zero false;
     WEIGHT_DECAY := three_quarters;
     NUM_EPOCHS := epochs;
     WARMUP_EPOCHS := 1;
     ACCUM_ITER := accum_iter;
     MASK_RATIO := three_quarters;
     NORM_PIX_LOSS := true;
     DATAPATH := ["data"%string];
     TRANSFORM_TRAIN := "train"%string : @transform scalar_data;
     TRANSFORM_VAL := "val"%string : @transform scalar_data;
     OUTPUT_DIR := output_dir;
     CHECKPOINT_INTERVAL := interval;
     RESUME := resume;
     RESUME_ADDRESS := "out/checkpoint-0.pth";
     RESUME_START_EPOCH := 1;
     VERBOSE := verbose |}.

(** A loader without batches. *)
Definition idle : @Framework scalar_data :=
  scalar_framework 0 (fun _ _ => one).

(** A window of zero batches; a checkpoint interval of zero; a resume at
    the epoch the run would end at; a window of minus two batches. *)
Definition zero_window : @Config scalar_data :=
  sample_with 0 2 3 (Some ["out"%string]) false false.

Definition zero_interval : @Config scalar_data :=
  sample_with 2 0 3 (Some ["out"%string]) false false.

Definition resumed_past_the_end : @Config scalar_data :=
  sample_with 2 2 1 (Some ["out"%string]) true false.

Definition negative_window : @Config scalar_data :=
  sample_with (-2) 2 3 (Some ["out"%string]) false false.

(** No output directory, with a window and an interval of zero, and with
    an interval of zero only. *)
Definition no_output : @Config scalar_data :=
  sample_with 0 0 3 None false false.

Definition no_output_windowed : @Config scalar_data :=
  sample_with 2 0 3 None false false.

(** What the steady sample saves after its last epoch: three optimizer
    steps made, the rate of both groups at the minimum. *)
Definition sample_checkpoint : @checkpoint scalar_data :=
  @checkpoint_of scalar_data sample_config 3%nat 2
    {| param_groups :=
         [ {| lr := S754_zero false; weight_decay := S754_zero false |};
           {| lr := S754_zero false; weight_decay := three_quarters |} ];
       betas := (beta1, beta2);
       opt_state := 3%nat : @moments scalar_data |}
    3%nat.

(** * Properties *)

(** ** Loops *)

Lemma loop_run_map {E X Y : Type} (f : X -> Y)
    (step : Y -> list E -> option exception -> Prop) xs t o :
  loop_run (fun x => step (f x)) xs t o -> loop_run step (map f xs) t o.
Proof.
  induction 1; simpl.
  - constructor.
  - now apply loop_next.
  - now apply loop_stop.
Qed.

(** An entry of a loop's journal comes from one iteration; the iterations
    before it ended normally, and nothing follows an iteration that raised. *)
Lemma loop_run_entry {E X : Type}
    (step : X -> list E -> option exception -> Prop) xs t o a :
  loop_run step xs t o -> In a t ->
  exists xs1 x xs2 t1 seg t2 o',
    xs = xs1 ++ x :: xs2 /\ t = t1 ++ seg ++ t2 /\ In a seg
    /\ step x seg o' /\ loop_run step xs1 t1 None
    /\ ((o' = None /\ loop_run step xs2 t2 o) \/ (o' = o /\ t2 = [])).
Proof.
  induction 1 as [| x rest t1 t2 o Hstep Hrest IH | x rest t e Hstep];
    intros Hin.
  - destruct Hin.
  - apply in_app_or in Hin. destruct Hin as [Hin | Hin].
    + exists [], x, rest, [], t1, t2, None. cbn.
      repeat split; try assumption; [constructor | now left].
    + destruct (IH Hin) as (xs1 & y & xs2 & u1 & seg & u2 & o' &
                            -> & -> & Ha & Hy & Hxs1 & Hafter).
      exists (x :: xs1), y, xs2, (t1 ++ u1), seg, u2, o'.
      repeat split; try assumption.
      * now rewrite <- app_assoc.
      * now apply loop_next.
  - exists [], x, rest, [], t, [], (Some e). cbn. rewrite app_nil_r.
    repeat split; try assumption; [constructor | now right].
Qed.

(** What holds of the entries of every iteration holds of the loop's. *)
Lemma loop_run_Forall {E X : Type}
    (step : X -> list E -> option exception -> Prop)
    (P : X -> E -> Prop) xs t o :
  (forall x seg o', step x seg o' -> Forall (P x) seg) ->
  loop_run step xs t o ->
  Forall (fun a => exists x, In x xs /\ P x a) t.
Proof.
  intros HP. induction 1 as [| x rest t1 t2 o Hstep Hrest IH | x rest t e Hstep].
  - constructor.
  - apply Forall_app. split.
    + eapply Forall_impl; [| exact (HP _ _ _ Hstep)].
      intros a Ha. exists x. split; [now left | exact Ha].
    + eapply Forall_impl; [| exact IH].
      intros a (y & Hy & Ha). exists y. split; [now right | exact Ha].
  - eapply Forall_impl; [| exact (HP _ _ _ Hstep)].
    intros a Ha. exists x. split; [now left | exact Ha].
Qed.

(** An iteration of a loop that ended normally, with what ran before and
    after it. *)
Lemma loop_run_split {E X : Type}
    (step : X -> list E -> option exception -> Prop) xs t x :
  loop_run step xs t None -> In x xs ->
  exists xs1 xs2 t1 seg t2,
    xs = xs1 ++ x :: xs2 /\ t = t1 ++ seg ++ t2 /\ step x seg None
    /\ loop_run step xs1 t1 None /\ loop_run step xs2 t2 None.
Proof.
  intros H. remember None as o eqn:Ho. revert Ho.
  induction H as [| y rest t1 t2 o Hstep Hrest IH | y rest t e Hstep];
    intros Ho Hin; subst.
  - destruct Hin.
  - destruct Hin as [-> | Hin].
    + exists [], rest, [], t1, t2. repeat split; try assumption. constructor.
    + destruct (IH eq_refl Hin)
        as (xs1 & xs2 & u1 & seg & u2 & -> & -> & Hseg & H1 & H2).
      exists (y :: xs1), xs2, (t1 ++ u1), seg, u2.
      repeat split; try assumption.
      * now rewrite <- app_assoc.
      * now apply loop_next.
  - discriminate.
Qed.

Lemma NoDup_app_disjoint {A : Type} (l1 l2 : list A) x :
  NoDup (l1 ++ l2) -> In x l1 -> ~ In x l2.
Proof.
  intros Hnd H1 H2. apply in_split in H1. destruct H1 as (a & b & ->).
  rewrite <- app_assoc in Hnd. cbn in Hnd.
  apply NoDup_remove_2 in Hnd. apply Hnd.
  apply in_or_app. right. apply in_or_app. now right.
Qed.

Lemma for_each_appends {O : Opaque} {X : Type} (xs : list X)
    (body : X -> M World unit) step :
  (forall x, In x xs -> appends (body x) (step x)) ->
  appends (for_each xs body) (loop_run step xs).
Proof.
  induction xs as [|x rest IH]; intros Hbody w; simpl.
  - exists []. rewrite app_nil_r. split; [reflexivity | constructor].
  - unfold bind.
    destruct (Hbody x (or_introl eq_refl) w) as [t1 [E1 R1]].
    destruct (body x w) as [[] w1 | e w1]; simpl in *.
    + destruct (IH (fun y Hy => Hbody y (or_intror Hy)) w1) as [t2 [E2 R2]].
      exists (t1 ++ t2). rewrite E2, E1, app_assoc.
      split; [reflexivity | now apply loop_next].
    + exists t1. split; [assumption | now apply loop_stop].
Qed.

Lemma map_fst_zip {A B : Type} (ks : list A) (xs : list B) :
  List.length ks = List.length xs -> map fst (combine ks xs) = ks.
Proof.
  revert xs. induction ks as [|k ks IH]; intros [|x xs]; simpl; try easy.
  intros E. f_equal. apply IH. lia.
Qed.

Lemma enumerate_fst {A : Type} (xs : list A) :
  map fst (enumerate xs) = map Z.of_nat (seq 0 (List.length xs)).
Proof.
  unfold enumerate. apply map_fst_zip.
  now rewrite length_map, length_seq.
Qed.

(** ** Paths *)

Lemma string_app_assoc (a b c : string) :
  ((a ++ b) ++ c = a ++ b ++ c)%string.
Proof. induction a as [| ch a IH]; cbn; [reflexivity | now rewrite IH]. Qed.

Lemma str_path_joinpath (p : Path) (name : string) :
  p <> [] ->
  str_path (joinpath p name) = (str_path p ++ "/" ++ name)%string.
Proof.
  unfold str_path, joinpath. intros Hp.
  induction p as [| x [| y rest] IH]; [easy | reflexivity |].
  change (String.concat "/" ((x :: y :: rest) ++ [name]))
    with (x ++ "/" ++ String.concat "/" ((y :: rest) ++ [name]))%string.
  rewrite IH by discriminate.
  change (String.concat "/" (x :: y :: rest))
    with (x ++ "/" ++ String.concat "/" (y :: rest))%string.
  now rewrite !string_app_assoc.
Qed.

(** ** The journal of the script *)

Section Journal.

Context {O : Opaque} {F : Framework}.

Variable config : Config.
Variable train_dataloader : DataLoader.

Lemma batches_fst epoch :
  map fst (batches train_dataloader epoch) = steps train_dataloader.
Proof.
  unfold batches, steps. now rewrite enumerate_fst, length_map, length_seq.
Qed.

Lemma batches_nonempty epoch it :
  In it (batches train_dataloader epoch) -> loader_len train_dataloader <> 0%nat.
Proof.
  unfold batches. intros H E. rewrite E in H. exact H.
Qed.

Lemma batch_run_trained epoch i loss t :
  ACCUM_ITER config <> 0 ->
  isfinite (item loss) = true ->
  t = lr_calls config train_dataloader epoch i
      ++ forward_call config epoch i loss :: update_calls config epoch i loss ->
  batch_run config train_dataloader epoch i t None.
Proof. intros Hk Hfin ->. now apply batch_trained. Qed.

Lemma batch_run_diverged epoch i loss t :
  ACCUM_ITER config <> 0 ->
  isfinite (item loss) = false ->
  t = lr_calls config train_dataloader epoch i
      ++ [forward_call config epoch i loss;
          (InBatch epoch i, PrintLoss (item loss))] ->
  batch_run config train_dataloader epoch i t (Some (SystemExit 1)).
Proof. intros Hk Hfin ->. now apply batch_diverged. Qed.

Lemma batch_body_appends epoch i samples :
  loader_len train_dataloader <> 0%nat ->
  appends (batch_body config train_dataloader epoch (i, samples))
          (batch_run config train_dataloader epoch i).
Proof.
  intros Hlen w.
  assert ((Z.of_nat (loader_len train_dataloader) =? 0) = false) as Hl
    by (apply Z.eqb_neq; lia).
  unfold batch_body, adjust_learning_rate, scale_loss, exit_if_infinite_loss,
    engine_model_call, engine_zero_grad, NativeScaler_call,
    lr_sched_adjust_learning_rate, mod_, truediv.
  unfold bind, lift_py, in_globals, ret, raise, gets, modify, record, at_site.
  rewrite Hl.
  destruct (ACCUM_ITER config =? 0) eqn:Hk; cbn.
  - exists []. apply Z.eqb_eq in Hk. cbn. rewrite app_nil_r.
    split; [reflexivity | now constructor].
  - apply Z.eqb_neq in Hk.
    destruct (i mod ACCUM_ITER config =? 0) eqn:Hi; cbn;
      (destruct (isfinite (item (forward _ _ _))) eqn:Hfin; cbn;
       [ destruct ((i + 1) mod ACCUM_ITER config =? 0) eqn:Hu; cbn;
         [ destruct (optimizer_step _ _ _ _) as [m' s'] | ]; cbn | ]);
      (eexists; split; [ rewrite <- !app_assoc; reflexivity | ]); cbn;
      first [ eapply batch_run_trained; [ exact Hk | exact Hfin | ]
            | eapply batch_run_diverged; [ exact Hk | exact Hfin | ] ];
      unfold lr_calls, update_calls, forward_call; rewrite Hi, ?Hu;
      reflexivity.
Qed.

Lemma batch_loop_appends epoch :
  appends (for_each (batches train_dataloader epoch)
                    (batch_body config train_dataloader epoch))
          (loop_run (batch_run config train_dataloader epoch)
                    (steps train_dataloader)).
Proof.
  intros w.
  destruct (for_each_appends (batches train_dataloader epoch)
              (batch_body config train_dataloader epoch)
              (fun it => batch_run config train_dataloader epoch (fst it)))
    with (w := w) as [t [E R]].
  - intros [i samples] Hin. apply batch_body_appends.
    eapply batches_nonempty, Hin.
  - exists t. split; [exact E |].
    rewrite <- (batches_fst epoch). now apply loop_run_map.
Qed.

Lemma epoch_body_appends epoch :
  appends (epoch_body config train_dataloader epoch)
          (epoch_run config train_dataloader epoch).
Proof.
  intros w. unfold epoch_body.
  unfold bind at 1 2 3. unfold engine_train, engine_zero_grad.
  unfold bind at 1 2, in_globals at 1 2 3, record, at_site, modify. cbn.
  match goal with
  | |- context [bind (for_each _ _) _ ?w0] =>
      destruct (batch_loop_appends epoch w0) as [t [E R]];
      unfold bind; destruct (for_each _ _ w0) as [[] w1 | e w1]
  end; cbn in *.
  - unfold epoch_checkpoint, save_model, torch_save, mod_.
    unfold bind, lift_py, in_globals, ret, raise, gets, modify, record.
    destruct (OUTPUT_DIR config) as [output_dir|] eqn:Hdir; cbn.
    + destruct (CHECKPOINT_INTERVAL config =? 0) eqn:Hc; cbn.
      * exists (epoch_start epoch ++ t). split.
        { rewrite E. unfold epoch_start. now rewrite <- !app_assoc. }
        apply epoch_checkpoint_raises; [exact R |].
        unfold checkpoint_due, mod_. now rewrite Hdir, Hc.
      * destruct ((epoch mod CHECKPOINT_INTERVAL config =? 0)
                  || (epoch + 1 =? NUM_EPOCHS config)) eqn:Hdue; cbn.
        { eexists. split.
          - rewrite E. unfold epoch_start. rewrite <- !app_assoc. cbn.
            reflexivity.
          - apply (epoch_saved config train_dataloader epoch t output_dir);
              [exact R | | exact Hdir].
            unfold checkpoint_due, mod_. now rewrite Hdir, Hc, Hdue. }
        { exists (epoch_start epoch ++ t). split.
          - rewrite E. unfold epoch_start. now rewrite <- !app_assoc.
          - apply epoch_not_saved; [exact R |].
            unfold checkpoint_due, mod_. now rewrite Hdir, Hc, Hdue. }
    + exists (epoch_start epoch ++ t). split.
      * rewrite E. unfold epoch_start. now rewrite <- !app_assoc.
      * apply epoch_not_saved; [exact R |].
        unfold checkpoint_due. now rewrite Hdir.
  - exists (epoch_start epoch ++ t). split.
    + rewrite E. unfold epoch_start. now rewrite <- !app_assoc.
    + now apply epoch_interrupted.
Qed.

End Journal.

Section Run.

Context {O : Opaque} {F : Framework}.

Variable config : Config.

Lemma resume_or_zero w :
  here (globals w) = Startup ->
  exists w1 pre,
    (if RESUME config then resume_model config else ret 0) w
    = Normal
        (if RESUME config then
           args_start_epoch
             (fst (load_model
                     {| args_resume := RESUME_ADDRESS config;
                        args_start_epoch := RESUME_START_EPOCH config |}
                     (engine_model (engine w), engine_optimizer (engine w),
                      loss_scaler w)))
         else 0) w1
    /\ journal (globals w1) = journal (globals w) ++ pre
    /\ here (globals w1) = Startup
    /\ Forall startup_entry pre.
Proof.
  intros Hhere. destruct (RESUME config).
  - unfold resume_model, misc_load_model, if_VERBOSE, LOGGER_info.
    unfold bind, in_globals, ret, gets, modify, record. cbn.
    destruct (load_model _ _) as [args' [[m' o'] s']]. cbn.
    destruct (g_VERBOSE (globals w)); cbn; eexists; eexists;
      (split; [reflexivity |]); cbn;
      (split; [rewrite <- ?app_assoc; reflexivity |]);
      (split; [assumption |]); rewrite Hhere; repeat constructor.
  - exists w, []. rewrite app_nil_r. repeat split; [assumption | constructor].
Qed.

Lemma train_shape train_dataloader w :
  here (globals w) = Startup ->
  exists pre t,
    journal (globals (final (train config train_dataloader w)))
    = journal (globals w) ++ pre ++ t
      ++ teardown (raised (train config train_dataloader w))
    /\ Forall startup_entry pre
    /\ epochs_run config train_dataloader
         (if RESUME config then
            args_start_epoch
              (fst (load_model
                      {| args_resume := RESUME_ADDRESS config;
                         args_start_epoch := RESUME_START_EPOCH config |}
                      (engine_model (engine w), engine_optimizer (engine w),
                       loss_scaler w)))
          else 0)
         t (raised (train config train_dataloader w)).
Proof.
  intros Hhere.
  remember (train config train_dataloader w) as r eqn:Hr.
  unfold train in Hr.
  destruct (resume_or_zero w Hhere) as [w1 [pre [Hrun [Hj [Hh Hpre]]]]].
  unfold bind at 1 in Hr. rewrite Hrun in Hr.
  unfold bind at 1, in_globals at 1, LOGGER_info at 1, record at 1, modify in Hr.
  cbn in Hr.
  match type of Hr with
  | context [bind (for_each ?xs ?b) _ ?w0] =>
      destruct (for_each_appends xs b
                  (epoch_run config train_dataloader)
                  (fun x _ => epoch_body_appends config train_dataloader x) w0)
        as [t [E R]];
      unfold bind in Hr; destruct (for_each xs b w0) as [[] w2 | e w2]
  end; cbn in *; subst r; cbn;
    exists (pre ++ [(Startup, LoggerInfo "Start pre-training for")]), t;
    (split; [| split; [| exact R]]).
  - rewrite E, Hj, Hh. now rewrite <- !app_assoc.
  - apply Forall_app. split; [assumption | repeat constructor].
  - rewrite E, Hj, Hh. rewrite app_nil_r. now rewrite <- !app_assoc.
  - apply Forall_app. split; [assumption | repeat constructor].
Qed.

Lemma init_engine_run g :
  here g = Startup ->
  exists g' pre,
    init_engine config g
    = Normal (built_engine config, built_train_dataloader config,
              built_test_dataloader config) g'
    /\ journal g' = journal g ++ pre
    /\ here g' = Startup
    /\ Forall startup_entry pre.
Proof.
  intros Hhere.
  unfold init_engine, model, optimizer, criterion, pretrain_dataloaders,
    if_VERBOSE, LOGGER_info.
  unfold bind, ret, gets, modify, record.
  destruct g as [v j h]. cbn in *. subst h.
  destruct v; cbn.
  - eexists; eexists. split; [reflexivity |]. cbn.
    split; [rewrite <- !app_assoc; reflexivity |].
    split; [reflexivity | repeat constructor].
  - exists {| g_VERBOSE := false; journal := j; here := Startup |}, [].
    cbn. rewrite app_nil_r. repeat split. constructor.
Qed.

Lemma run_shape :
  exists pre t,
    journal (final (run config))
    = pre ++ t ++ teardown (raised (run config))
    /\ Forall startup_entry pre
    /\ epochs_run config (built_train_dataloader config) (start_epoch config)
         t (raised (run config)).
Proof.
  remember (run config) as r eqn:Hr.
  unfold run, main, init_global_states in Hr.
  unfold bind at 1, modify at 1 in Hr.
  destruct (init_engine_run (set_VERBOSE (VERBOSE config) process_start)
              eq_refl) as [g [pre0 [Hrun [Hj [Hh Hpre0]]]]].
  unfold bind in Hr. rewrite Hrun in Hr. cbn in Hr.
  unfold with_objects in Hr.
  match type of Hr with
  | context [train _ _ ?w0] =>
      destruct (train_shape (built_train_dataloader config) w0 Hh)
        as [pre1 [t [E [Hpre1 R]]]];
      destruct (train config (built_train_dataloader config) w0)
        as [[] w1 | e w1]
  end; cbn in *; subst r; cbn; exists (pre0 ++ pre1), t;
    (split; [rewrite E, Hj; cbn; now rewrite <- ?app_assoc |]);
    (split; [apply Forall_app; now split | exact R]).
Qed.

(** *** Where an entry of a run comes from *)

Lemma range_In a b e : In e (range a b) <-> a <= e < b.
Proof.
  unfold range. rewrite in_map_iff. split.
  - intros (j & <- & Hj). apply in_seq in Hj. lia.
  - intros H. exists (Z.to_nat (e - a)). split; [lia |].
    apply in_seq. lia.
Qed.

Lemma range_NoDup a b : NoDup (range a b).
Proof.
  unfold range. apply Injective_map_NoDup; [| apply seq_NoDup].
  intros x y. lia.
Qed.

Lemma batch_run_sites train_dataloader epoch i seg o :
  batch_run config train_dataloader epoch i seg o ->
  Forall (fun a => fst a = InBatch epoch i) seg.
Proof.
  intros H. destruct H; unfold lr_calls, update_calls, forward_call;
    repeat match goal with
    | |- context [if ?b then _ else _] => destruct b
    end; repeat constructor.
Qed.

Lemma batch_loop_sites train_dataloader epoch xs t o :
  loop_run (batch_run config train_dataloader epoch) xs t o ->
  Forall (fun a => exists i, In i xs /\ fst a = InBatch epoch i) t.
Proof.
  apply loop_run_Forall with (P := fun i a => fst a = InBatch epoch i).
  intros i seg o'. apply batch_run_sites.
Qed.

Lemma batch_loop_in_epoch train_dataloader epoch xs t o :
  loop_run (batch_run config train_dataloader epoch) xs t o ->
  Forall (in_epoch epoch) t.
Proof.
  intros H. eapply Forall_impl; [| exact (batch_loop_sites _ _ _ _ _ H)].
  intros a (i & _ & Ha). unfold in_epoch. now rewrite Ha.
Qed.

Lemma epoch_run_in_epoch train_dataloader epoch seg o :
  epoch_run config train_dataloader epoch seg o ->
  Forall (in_epoch epoch) seg.
Proof.
  intros H. destruct H;
    repeat (apply Forall_app; split);
    try (eapply batch_loop_in_epoch; eassumption);
    repeat constructor.
Qed.

Lemma epochs_run_in_epoch train_dataloader xs t o :
  loop_run (epoch_run config train_dataloader) xs t o ->
  Forall (fun a => exists e, In e xs /\ in_epoch e a) t.
Proof.
  apply loop_run_Forall. intros e seg o'. apply epoch_run_in_epoch.
Qed.

Lemma in_epoch_unique e e' a : in_epoch e a -> in_epoch e' a -> e = e'.
Proof. unfold in_epoch. destruct (fst a); intros; subst; easy. Qed.

Lemma startup_not_in_epoch e a : startup_entry a -> ~ in_epoch e a.
Proof. unfold startup_entry, in_epoch. intros [-> _]. easy. Qed.

Lemma teardown_not_in_epoch e o : Forall (fun a => ~ in_epoch e a) (teardown o).
Proof. destruct o; repeat constructor. easy. Qed.

(** An entry recorded during an epoch lies in the journal of that epoch;
    nothing before it belongs to the epoch, and if the epoch raised,
    nothing follows. *)
Lemma epoch_entry a e :
  In a (journal (final (run config))) -> in_epoch e a ->
  exists before seg after o,
    journal (final (run config)) = before ++ seg ++ after
    /\ In a seg
    /\ epoch_run config (built_train_dataloader config) e seg o
    /\ start_epoch config <= e < NUM_EPOCHS config
    /\ Forall (fun b => ~ in_epoch e b) before
    /\ (o = None \/ (o = raised (run config) /\ after = [])).
Proof.
  intros Hin He.
  destruct run_shape as (pre & t & HJ & Hpre & Hrun).
  rewrite HJ in *.
  apply in_app_or in Hin. destruct Hin as [Hin | Hin].
  { rewrite Forall_forall in Hpre.
    now destruct (startup_not_in_epoch e a (Hpre a Hin)). }
  apply in_app_or in Hin. destruct Hin as [Hin | Hin].
  2:{ pose proof (teardown_not_in_epoch e (raised (run config))) as Htd.
      rewrite Forall_forall in Htd. now destruct (Htd a Hin). }
  unfold epochs_run in Hrun.
  destruct (loop_run_entry _ _ _ _ _ Hrun Hin)
    as (xs1 & e' & xs2 & t1 & seg & t2 & o' &
        Hxs & -> & Ha & Hseg & Hbefore & Hafter).
  assert (e' = e) as ->.
  { pose proof (epoch_run_in_epoch _ _ _ _ Hseg) as Hs.
    rewrite Forall_forall in Hs. exact (in_epoch_unique _ _ _ (Hs a Ha) He). }
  exists (pre ++ t1), seg, (t2 ++ teardown (raised (run config))), o'.
  split; [now rewrite <- !app_assoc |].
  split; [exact Ha |]. split; [exact Hseg |].
  split; [apply range_In; rewrite Hxs; apply in_elt |].
  split.
  - apply Forall_app. split.
    + eapply Forall_impl; [| exact Hpre]. intros b. apply startup_not_in_epoch.
    + pose proof (range_NoDup (start_epoch config) (NUM_EPOCHS config)) as Hnd.
      rewrite Hxs in Hnd. apply NoDup_remove_2 in Hnd.
      eapply Forall_impl; [| exact (epochs_run_in_epoch _ _ _ _ Hbefore)].
      intros b (e' & He' & Hb) Hb'.
      apply Hnd. apply in_or_app. left.
      now rewrite <- (in_epoch_unique _ _ _ Hb Hb').
  - destruct Hafter as [[-> _] | [-> ->]]; [now left |].
    destruct (raised (run config)); [now right | now left].
Qed.

(** The journal of an epoch: its start, its batches, and at most a
    checkpoint after a batch loop that ended normally. *)
Lemma epoch_run_parts train_dataloader e seg o :
  epoch_run config train_dataloader e seg o ->
  exists t ob tail,
    seg = epoch_start e ++ t ++ tail
    /\ loop_run (batch_run config train_dataloader e)
         (steps train_dataloader) t ob
    /\ Forall (fun b => exists obj path, b = (InEpoch e, TorchSave obj path))
         tail
    /\ (forall x, ob = Some x -> o = Some x /\ tail = []).
Proof.
  intros H. destruct H as [t x H | t x H Hc | t H Hc | t d m o s H Hc Hd].
  - exists t, (Some x), []. rewrite app_nil_r.
    repeat split; try assumption; try constructor; congruence.
  - exists t, None, []. rewrite app_nil_r.
    repeat split; try assumption; try constructor; congruence.
  - exists t, None, []. rewrite app_nil_r.
    repeat split; try assumption; try constructor; congruence.
  - eexists t, None, [_].
    repeat split; try eassumption; try congruence.
    repeat constructor. eauto.
Qed.

Lemma steps_NoDup train_dataloader : NoDup (steps train_dataloader).
Proof.
  unfold steps. apply Injective_map_NoDup; [| apply seq_NoDup].
  intros x y. lia.
Qed.

(** An entry recorded in a batch lies in the journal of that batch; if the
    batch raised, nothing follows. What precedes it in its epoch is the
    start of the epoch and earlier batches. *)
Lemma batch_entry a e i :
  In a (journal (final (run config))) -> fst a = InBatch e i ->
  exists before seg after o,
    journal (final (run config)) = before ++ seg ++ after
    /\ In a seg
    /\ batch_run config (built_train_dataloader config) e i seg o
    /\ start_epoch config <= e < NUM_EPOCHS config
    /\ In i (steps (built_train_dataloader config))
    /\ Forall (fun b => fst b = InEpoch e -> In b (epoch_start e)) before
    /\ (o = None \/ (o = raised (run config) /\ after = []))
    /\ Forall (fun b => fst b <> InBatch e i) before.
Proof.
  intros Hin Hsite.
  assert (in_epoch e a) as He by (unfold in_epoch; now rewrite Hsite).
  destruct (epoch_entry a e Hin He)
    as (B & eseg & A & o & HJ & Ha & Hseg & Hrange & HB & Hafter).
  destruct (epoch_run_parts _ _ _ _ Hseg)
    as (t & ob & tail & -> & Hloop & Htail & Hob).
  assert (In a t) as Hat.
  { apply in_app_or in Ha. destruct Ha as [Ha | Ha].
    - cbn in Ha. destruct Ha as [<- | [<- | []]]; discriminate.
    - apply in_app_or in Ha. destruct Ha as [Ha | Ha]; [exact Ha |].
      rewrite Forall_forall in Htail.
      destruct (Htail a Ha) as (obj & path & ->). discriminate. }
  destruct (loop_run_entry _ _ _ _ _ Hloop Hat)
    as (xs1 & i' & xs2 & t1 & seg & t2 & ob' &
        Hxs & -> & Has & Hbatch & Hbefore & Hrest).
  assert (i' = i) as ->.
  { pose proof (batch_run_sites _ _ _ _ _ Hbatch) as Hs.
    rewrite Forall_forall in Hs. specialize (Hs a Has). congruence. }
  exists (B ++ epoch_start e ++ t1), seg, (t2 ++ tail ++ A), ob'.
  split; [rewrite HJ; now rewrite <- !app_assoc |].
  split; [exact Has |]. split; [exact Hbatch |]. split; [exact Hrange |].
  split; [rewrite Hxs; apply in_elt |].
  split.
  - apply Forall_app. split.
    + eapply Forall_impl; [| exact HB].
      intros b Hb Hsb. destruct Hb. unfold in_epoch. now rewrite Hsb.
    + apply Forall_app. split.
      * apply Forall_forall. intros b Hb _. exact Hb.
      * eapply Forall_impl; [| exact (batch_loop_sites _ _ _ _ _ Hbefore)].
        intros b (j & _ & Hb) Hsb. congruence.
  - split.
    + destruct Hrest as [[-> _] | [-> ->]]; [now left |].
      destruct ob as [x |]; [| now left]. right.
      destruct (Hob x eq_refl) as [-> ->].
      destruct Hafter as [Hnone | [<- ->]]; [discriminate |].
      now split.
    + apply Forall_app. split.
      * eapply Forall_impl; [| exact HB].
        intros b Hb Hsb. destruct Hb. unfold in_epoch. now rewrite Hsb.
      * apply Forall_app. split; [repeat constructor; discriminate |].
        pose proof (steps_NoDup (built_train_dataloader config)) as Hnd.
        rewrite Hxs in Hnd. apply NoDup_remove_2 in Hnd.
        eapply Forall_impl; [| exact (batch_loop_sites _ _ _ _ _ Hbefore)].
        intros b (j & Hj & Hb) Hsb. rewrite Hb in Hsb. injection Hsb as ->.
        apply Hnd. apply in_or_app. now left.
Qed.

(** *** What a batch records *)

Lemma batch_run_forward train_dataloader e i seg o s m loss :
  batch_run config train_dataloader e i seg o ->
  In (s, ModelForward m loss) seg ->
  ACCUM_ITER config <> 0 /\ m = MASK_RATIO config
  /\ ((isfinite (item loss) = true /\ o = None
       /\ seg = lr_calls config train_dataloader e i
                ++ forward_call config e i loss :: update_calls config e i loss)
      \/ (isfinite (item loss) = false /\ o = Some (SystemExit 1)
          /\ seg = lr_calls config train_dataloader e i
                   ++ [forward_call config e i loss;
                       (InBatch e i, PrintLoss (item loss))])).
Proof.
  intros H Hin. destruct H as [Hk | loss' Hk Hfin | loss' Hk Hfin].
  - destruct Hin.
  - assert (loss' = loss /\ m = MASK_RATIO config) as [-> ->].
    { unfold lr_calls, forward_call in Hin.
      destruct (i mod ACCUM_ITER config =? 0); cbn in Hin;
        intuition congruence. }
    split; [exact Hk |]. split; [reflexivity |]. right. now repeat split.
  - assert (loss' = loss /\ m = MASK_RATIO config) as [-> ->].
    { unfold lr_calls, forward_call, update_calls in Hin.
      destruct (i mod ACCUM_ITER config =? 0);
        destruct ((i + 1) mod ACCUM_ITER config =? 0); cbn in Hin;
        intuition congruence. }
    split; [exact Hk |]. split; [reflexivity |]. left. now repeat split.
Qed.

Lemma batch_run_trained_inv train_dataloader e i seg o a :
  batch_run config train_dataloader e i seg o ->
  In a seg ->
  match snd a with
  | LossScaler _ _ | LossBackward _ | OptimizerStep | EngineZeroGrad => True
  | _ => False
  end ->
  exists loss,
    ACCUM_ITER config <> 0 /\ isfinite (item loss) = true /\ o = None
    /\ seg = lr_calls config train_dataloader e i
             ++ forward_call config e i loss :: update_calls config e i loss
    /\ In a (update_calls config e i loss).
Proof.
  intros H Hin Hkind. destruct H as [Hk | loss Hk Hfin | loss Hk Hfin].
  - destruct Hin.
  - exfalso. unfold lr_calls, forward_call in Hin.
    destruct (i mod ACCUM_ITER config =? 0); cbn in Hin;
      repeat (destruct Hin as [<- | Hin]; [exact Hkind |]); exact Hin.
  - exists loss. repeat split; try assumption.
    apply in_app_or in Hin. destruct Hin as [Hin | [<- | Hin]].
    + exfalso. unfold lr_calls in Hin.
      destruct (i mod ACCUM_ITER config =? 0); cbn in Hin;
        repeat (destruct Hin as [<- | Hin]; [exact Hkind |]); exact Hin.
    + destruct Hkind.
    + exact Hin.
Qed.

Lemma consecutive_in_app (a b : entry) before seg after :
  consecutive a b seg -> consecutive a b (before ++ seg ++ after).
Proof.
  intros (s1 & s2 & ->). exists (before ++ s1), (s2 ++ after).
  now rewrite <- !app_assoc.
Qed.

(** Every entry of a run is a start-up entry, the closing log line, or
    was recorded during an epoch. *)
Lemma entry_cases a :
  In a (journal (final (run config))) ->
  startup_entry a \/ In a (teardown (raised (run config)))
  \/ exists e, in_epoch e a.
Proof.
  intros Hin. destruct run_shape as (pre & t & HJ & Hpre & Hrun).
  rewrite HJ in Hin.
  apply in_app_or in Hin. destruct Hin as [Hin | Hin].
  { left. rewrite Forall_forall in Hpre. now apply Hpre. }
  apply in_app_or in Hin. destruct Hin as [Hin | Hin]; [| now right; left].
  right. right.
  pose proof (epochs_run_in_epoch _ _ _ _ Hrun) as Hs.
  rewrite Forall_forall in Hs. destruct (Hs a Hin) as (e & _ & He).
  now exists e.
Qed.



Lemma batch_run_lr train_dataloader e i seg o s t args :
  batch_run config train_dataloader e i seg o ->
  In (s, LrSchedAdjust t args) seg ->
  i mod ACCUM_ITER config = 0
  /\ t = epoch_position train_dataloader e i
  /\ args = schedule_args config.
Proof.
  intros H Hin.
  assert (In (s, LrSchedAdjust t args) (lr_calls config train_dataloader e i))
    as Hlr.
  { destruct H as [Hk | loss Hk Hfin | loss Hk Hfin].
    - destruct Hin.
    - apply in_app_or in Hin. destruct Hin as [Hin | Hin]; [exact Hin |].
      cbn in Hin. unfold forward_call in Hin. intuition congruence.
    - apply in_app_or in Hin. destruct Hin as [Hin | [Hin | Hin]];
        [exact Hin | discriminate |].
      unfold update_calls in Hin.
      destruct ((i + 1) mod ACCUM_ITER config =? 0); cbn in Hin;
        intuition congruence. }
  unfold lr_calls in Hlr.
  destruct (i mod ACCUM_ITER config =? 0) eqn:E; cbn in Hlr; [| destruct Hlr].
  apply Z.eqb_eq in E. destruct Hlr as [Hlr | []]. inversion Hlr. auto.
Qed.

(** *** Checkpoints *)

Lemma checkpoint_due_true e :
  checkpoint_due config e = inr true <->
  OUTPUT_DIR config <> None /\ CHECKPOINT_INTERVAL config <> 0
  /\ (e mod CHECKPOINT_INTERVAL config = 0 \/ e = NUM_EPOCHS config - 1).
Proof.
  unfold checkpoint_due, mod_.
  destruct (OUTPUT_DIR config) as [d |].
  - destruct (CHECKPOINT_INTERVAL config =? 0) eqn:Hc.
    + apply Z.eqb_eq in Hc. split; [discriminate | intros (_ & H & _); lia].
    + apply Z.eqb_neq in Hc. split.
      * intros H. injection H as H. apply orb_true_iff in H.
        rewrite !Z.eqb_eq in H. split; [discriminate |]. split; [exact Hc | lia].
      * intros (_ & _ & H). f_equal. apply orb_true_iff.
        rewrite !Z.eqb_eq. lia.
  - split; [discriminate | intros (H & _); now destruct H].
Qed.

Lemma batch_run_no_save train_dataloader e i seg o s obj path :
  batch_run config train_dataloader e i seg o ->
  ~ In (s, TorchSave obj path) seg.
Proof.
  intros H Hin. destruct H; unfold lr_calls, update_calls, forward_call in Hin;
    repeat match type of Hin with
    | context [if ?b then _ else _] => destruct b
    end; cbn in Hin; intuition discriminate.
Qed.

(** A checkpoint is only written by the last call of an epoch whose
    checkpoint condition holds. *)
Lemma torch_save_entry s obj path :
  In (s, TorchSave obj path) (journal (final (run config))) ->
  exists e output_dir m o sc,
    s = InEpoch e
    /\ start_epoch config <= e < NUM_EPOCHS config
    /\ OUTPUT_DIR config = Some output_dir
    /\ checkpoint_due config e = inr true
    /\ obj = checkpoint_of config m e o sc
    /\ path = checkpoint_path output_dir e.
Proof.
  intros Hin.
  destruct (entry_cases _ Hin) as [[_ H] | [H | (e & He)]].
  - destruct H.
  - destruct (raised (run config)); cbn in H; [destruct H |].
    destruct H as [H | []]. discriminate.
  - destruct (epoch_entry _ e Hin He)
      as (before & seg & after & o & HJ & Ha & Hseg & Hrange & _).
    assert (forall t ob,
              loop_run (batch_run config (built_train_dataloader config) e)
                       (steps (built_train_dataloader config)) t ob ->
              ~ In (s, TorchSave obj path) t) as Hbatches.
    { intros t ob Hloop Hat.
      destruct (loop_run_entry _ _ _ _ _ Hloop Hat)
        as (_ & j & _ & _ & bseg & _ & ob' & _ & _ & Hb & Hrun & _).
      exact (batch_run_no_save _ _ _ _ _ _ _ _ Hrun Hb). }
    destruct Hseg as [t x H | t x H Hc | t H Hc | t d m o sc H Hc Hd];
      apply in_app_or in Ha;
      (destruct Ha as [Ha | Ha];
       [cbn in Ha; intuition discriminate |]);
      try (now destruct (Hbatches _ _ H Ha)).
    apply in_app_or in Ha. destruct Ha as [Ha | [Ha | []]];
      [now destruct (Hbatches _ _ H Ha) |].
    inversion Ha. subst. exists e, d, m, o, sc. now repeat split.
Qed.

(** *** Epochs that reached their end *)

Lemma range_nth a b j x :
  nth_error (range a b) j = Some x -> x = a + Z.of_nat j.
Proof.
  unfold range. rewrite nth_error_map.
  destruct (nth_error (seq 0 (Z.to_nat (b - a))) j) as [k |] eqn:E;
    [| discriminate].
  cbn. intros H. injection H as <-.
  assert (j < List.length (seq 0 (Z.to_nat (b - a))))%nat as Hj
    by (apply nth_error_Some; congruence).
  rewrite length_seq in Hj.
  rewrite nth_error_nth' with (d := 0%nat) in E
    by (now rewrite length_seq).
  rewrite seq_nth in E by exact Hj. injection E as <-. reflexivity.
Qed.

Lemma range_before a b xs1 x xs2 y :
  range a b = xs1 ++ x :: xs2 -> a <= y < x -> In y xs1.
Proof.
  intros Hxs Hy.
  assert (x = a + Z.of_nat (List.length xs1)) as Hx.
  { apply (range_nth a b). rewrite Hxs.
    rewrite nth_error_app2 by lia. now rewrite Nat.sub_diag. }
  assert (In y (range a b)) as Hin.
  { apply range_In. split; [lia |].
    assert (In x (range a b)) as Hxin by (rewrite Hxs; apply in_elt).
    apply range_In in Hxin. lia. }
  apply In_nth_error in Hin. destruct Hin as [j Hj].
  pose proof (range_nth _ _ _ _ Hj) as Hyj.
  rewrite Hxs in Hj.
  rewrite nth_error_app1 in Hj by lia.
  eapply nth_error_In, Hj.
Qed.

(** The journal of an epoch that was followed by another epoch, or of any
    epoch of a run that returned, is that of an epoch that ended normally;
    nothing else in the journal belongs to that epoch. *)
Lemma completed_epoch e :
  start_epoch config <= e < NUM_EPOCHS config ->
  raised (run config) = None
  \/ (exists e', e < e'
        /\ In (InEpoch e', EngineTrain) (journal (final (run config)))) ->
  exists before seg after,
    journal (final (run config)) = before ++ seg ++ after
    /\ epoch_run config (built_train_dataloader config) e seg None
    /\ Forall (fun b => ~ in_epoch e b) before
    /\ Forall (fun b => ~ in_epoch e b) after.
Proof.
  intros Hrange Hdone.
  destruct run_shape as (pre & t & HJ & Hpre & Hrun).
  unfold epochs_run in Hrun.
  pose proof (range_NoDup (start_epoch config) (NUM_EPOCHS config)) as Hnd.
  assert (forall xs u o,
            loop_run (epoch_run config (built_train_dataloader config))
                     xs u o ->
            ~ In e xs -> Forall (fun b => ~ in_epoch e b) u) as Hother.
  { intros xs u o Hloop Hnot.
    eapply Forall_impl; [| exact (epochs_run_in_epoch _ _ _ _ Hloop)].
    intros b (e' & He' & Hb) Hb'.
    apply Hnot. now rewrite (in_epoch_unique _ _ _ Hb' Hb). }
  assert (exists xs u v,
            t = u ++ v
            /\ loop_run (epoch_run config (built_train_dataloader config))
                 xs u None
            /\ In e xs /\ NoDup xs
            /\ Forall (fun b => ~ in_epoch e b) v)
    as (xs & u & v & -> & Hloop & Hin & Hndx & Hv).
  { destruct Hdone as [Hnormal | (e' & Hlt & Hin)].
    - rewrite Hnormal in Hrun.
      exists (range (start_epoch config) (NUM_EPOCHS config)), t, [].
      rewrite app_nil_r.
      repeat split; [exact Hrun | now apply range_In | exact Hnd | constructor].
    - rewrite HJ in Hin.
      apply in_app_or in Hin. destruct Hin as [Hin | Hin].
      { rewrite Forall_forall in Hpre. destruct (Hpre _ Hin) as [_ []]. }
      apply in_app_or in Hin. destruct Hin as [Hin | Hin].
      2:{ destruct (raised (run config)); cbn in Hin; [destruct Hin |].
          destruct Hin as [Hin | []]. discriminate. }
      destruct (loop_run_entry _ _ _ _ _ Hrun Hin)
        as (xs1 & x & xs2 & t1 & seg & t2 & o' &
            Hxs & -> & Ha & Hseg & Hbefore & Hafter).
      assert (x = e') as ->.
      { pose proof (epoch_run_in_epoch _ _ _ _ Hseg) as Hs.
        rewrite Forall_forall in Hs. symmetry. exact (Hs _ Ha). }
      assert (In e xs1) as Hexs1
        by (apply (range_before _ _ _ _ _ _ Hxs); lia).
      rewrite Hxs in Hnd.
      exists xs1, t1, (seg ++ t2).
      repeat split;
        [exact Hbefore | exact Hexs1 | exact (NoDup_app_remove_r _ _ Hnd) |].
      apply Forall_app. split.
      + eapply Forall_impl; [| exact (epoch_run_in_epoch _ _ _ _ Hseg)].
        intros b Hb Hb'. pose proof (in_epoch_unique _ _ _ Hb Hb'). lia.
      + assert (~ In e xs2) as Hexs2.
        { intros H. apply (NoDup_app_disjoint _ _ e Hnd Hexs1). now right. }
        destruct Hafter as [[_ Hloop2] | [_ ->]]; [| constructor].
        exact (Hother _ _ _ Hloop2 Hexs2). }
  destruct (loop_run_split _ _ _ _ Hloop Hin)
    as (ys1 & ys2 & s1 & seg & s2 & -> & -> & Hseg & Hs1 & Hs2).
  exists (pre ++ s1), seg, (s2 ++ v ++ teardown (raised (run config))).
  split; [rewrite HJ; now rewrite <- !app_assoc |].
  split; [exact Hseg |].
  pose proof (NoDup_remove_2 _ _ _ Hndx) as Hnot.
  split.
  - apply Forall_app. split.
    + eapply Forall_impl; [| exact Hpre]. intros b. apply startup_not_in_epoch.
    + apply (Hother _ _ _ Hs1). intros H. apply Hnot. apply in_or_app. now left.
  - apply Forall_app. split.
    + apply (Hother _ _ _ Hs2). intros H. apply Hnot. apply in_or_app. now right.
    + apply Forall_app. split; [exact Hv | apply teardown_not_in_epoch].
Qed.


(** *** The epochs entered *)

Lemma epochs_entered_app (a b : list entry) :
  epochs_entered (a ++ b) = epochs_entered a ++ epochs_entered b.
Proof.
  induction a as [| [s c] a IH]; [reflexivity |].
  destruct s, c; cbn; rewrite ?IH; reflexivity.
Qed.

Lemma epochs_entered_none (l : list entry) :
  Forall (fun a => forall e, a <> (InEpoch e, EngineTrain)) l ->
  epochs_entered l = [].
Proof.
  induction 1 as [| [s c] l Hx _ IH]; [reflexivity |].
  destruct s, c; cbn; try exact IH. now destruct (Hx epoch).
Qed.

Lemma epochs_entered_epoch train_dataloader e seg o :
  epoch_run config train_dataloader e seg o -> epochs_entered seg = [e].
Proof.
  intros Hseg.
  destruct (epoch_run_parts _ _ _ _ Hseg)
    as (t & ob & tail & -> & Hloop & Htail & _).
  rewrite !epochs_entered_app. cbn.
  rewrite (epochs_entered_none t), (epochs_entered_none tail); [reflexivity | |].
  - eapply Forall_impl; [| exact Htail].
    intros a (obj & path & ->) e'. discriminate.
  - eapply Forall_impl; [| exact (batch_loop_sites _ _ _ _ _ Hloop)].
    intros a (i & _ & Ha) e' ->. discriminate.
Qed.

Lemma epochs_entered_loop train_dataloader xs t o :
  loop_run (epoch_run config train_dataloader) xs t o ->
  exists n, epochs_entered t = firstn n xs
            /\ (o = None -> epochs_entered t = xs).
Proof.
  induction 1 as [| x rest t1 t2 o Hstep Hrest IH | x rest t e Hstep].
  - exists 0%nat. now split.
  - destruct IH as (n & Hn & Hall). exists (Datatypes.S n).
    rewrite epochs_entered_app, (epochs_entered_epoch _ _ _ _ Hstep).
    cbn. rewrite Hn. split; [reflexivity |].
    intros Ho. now rewrite <- Hn, (Hall Ho).
  - exists 1%nat. rewrite (epochs_entered_epoch _ _ _ _ Hstep).
    split; [reflexivity | discriminate].
Qed.

Lemma epochs_entered_run :
  exists n,
    epochs_entered (journal (final (run config)))
    = firstn n (range (start_epoch config) (NUM_EPOCHS config))
    /\ (raised (run config) = None ->
        epochs_entered (journal (final (run config)))
        = range (start_epoch config) (NUM_EPOCHS config)).
Proof.
  destruct run_shape as (pre & t & HJ & Hpre & Hrun).
  destruct (epochs_entered_loop _ _ _ _ Hrun) as (n & Hn & Hall).
  assert (epochs_entered (journal (final (run config))) = epochs_entered t)
    as ->.
  { rewrite HJ, !epochs_entered_app.
    rewrite (epochs_entered_none pre).
    - rewrite (epochs_entered_none (teardown _)); [now rewrite app_nil_r |].
      destruct (raised (run config)); repeat constructor. discriminate.
    - eapply Forall_impl; [| exact Hpre].
      intros [s c] [Hs _] e. cbn in Hs. subst s. discriminate. }
  exists n. now split.
Qed.


(** *** Counting optimizer steps *)

Lemma div_succ k n :
  0 < k -> 0 <= n ->
  (n + 1) / k = n / k + (if (n + 1) mod k =? 0 then 1 else 0).
Proof.
  intros Hk Hn.
  pose proof (Z.div_mod n k ltac:(lia)) as Hdm.
  pose proof (Z.mod_pos_bound n k Hk) as Hb.
  destruct (Z.eq_dec (n mod k + 1) k) as [E | E].
  - assert ((n + 1) mod k = 0) as ->
      by (symmetry; apply Z.mod_unique_pos with (q := n / k + 1); lia).
    cbn. symmetry. apply Z.div_unique_pos with (r := 0); lia.
  - assert ((n + 1) mod k = n mod k + 1) as ->
      by (symmetry; apply Z.mod_unique_pos with (q := n / k); lia).
    destruct (n mod k + 1 =? 0) eqn:E0; [apply Z.eqb_eq in E0; lia |].
    rewrite Z.add_0_r. symmetry.
    apply Z.div_unique_pos with (r := n mod k + 1); lia.
Qed.

Lemma count_windows k n :
  0 < k ->
  Z.of_nat (List.length
              (filter (fun i => (i + 1) mod k =? 0) (map Z.of_nat (seq 0 n))))
  = Z.of_nat n / k.
Proof.
  intros Hk. induction n as [| n IH].
  - cbn. now destruct k.
  - rewrite seq_S, map_app, filter_app, length_app, Nat2Z.inj_add, IH.
    cbn [map filter Nat.add].
    rewrite Nat2Z.inj_succ, <- Z.add_1_r.
    rewrite (div_succ k (Z.of_nat n)) by lia.
    destruct ((Z.of_nat n + 1) mod k =? 0); reflexivity.
Qed.

Lemma steps_taken_app e (a b : list entry) :
  steps_taken e (a ++ b) = (steps_taken e a + steps_taken e b)%nat.
Proof. unfold steps_taken. now rewrite filter_app, length_app. Qed.

Lemma steps_taken_other e (l : list entry) :
  Forall (fun b => ~ in_epoch e b) l -> steps_taken e l = 0%nat.
Proof.
  unfold steps_taken. induction 1 as [| [s c] l Hx _ IH]; [reflexivity |].
  cbn. destruct s, c; cbn; try exact IH.
  destruct (epoch =? e) eqn:E; [| exact IH].
  apply Z.eqb_eq in E. now destruct Hx.
Qed.

Lemma steps_taken_batches train_dataloader e xs t :
  loop_run (batch_run config train_dataloader e) xs t None ->
  steps_taken e t
  = List.length (filter (fun i => (i + 1) mod ACCUM_ITER config =? 0) xs).
Proof.
  intros H. remember None as o eqn:Ho. revert Ho.
  induction H as [| i rest t1 t2 o Hstep Hrest IH | i rest t x Hstep];
    intros Ho; subst; [reflexivity | | discriminate].
  rewrite steps_taken_app, (IH eq_refl). cbn [filter].
  inversion Hstep as [| | loss Hk Hfin]. subst.
  unfold steps_taken, lr_calls, forward_call, update_calls.
  destruct (i mod ACCUM_ITER config =? 0);
    destruct ((i + 1) mod ACCUM_ITER config =? 0); cbn;
    rewrite ?Z.eqb_refl; reflexivity.
Qed.

Lemma steps_taken_epoch train_dataloader e seg :
  0 < ACCUM_ITER config ->
  epoch_run config train_dataloader e seg None ->
  Z.of_nat (steps_taken e seg)
  = Z.of_nat (loader_len train_dataloader) / ACCUM_ITER config.
Proof.
  intros Hk Hseg.
  destruct (epoch_run_parts _ _ _ _ Hseg)
    as (t & ob & tail & -> & Hloop & Htail & Hob).
  destruct ob as [x |]; [now destruct (Hob x eq_refl) |].
  rewrite !steps_taken_app, (steps_taken_batches _ _ _ _ Hloop).
  assert (steps_taken e tail = 0%nat) as ->.
  { clear Hseg Hob. unfold steps_taken.
    induction Htail as [| b tail (obj & path & ->) _ IH];
      [reflexivity | exact IH]. }
  unfold steps. cbn. rewrite Nat.add_0_r. now apply count_windows.
Qed.

Lemma steps_In train_dataloader i :
  In i (steps train_dataloader) ->
  0 <= i < Z.of_nat (loader_len train_dataloader).
Proof.
  unfold steps. rewrite in_map_iff. intros (j & <- & Hj).
  apply in_seq in Hj. lia.
Qed.

Lemma partial_window k n i :
  0 < k -> n / k * k <= i < n -> (i + 1) mod k <> 0.
Proof.
  intros Hk Hi Hmod.
  pose proof (Z.div_mod (i + 1) k ltac:(lia)) as Hdm.
  rewrite Hmod, Z.add_0_r in Hdm.
  assert ((i + 1) / k <= n / k) as Hq by (apply Z.div_le_mono; lia).
  nia.
Qed.

(** *** Counting [zero_grad] calls *)





End Run.

(** ** The claims *)

Section Claims.

Context {O : Opaque} {F : Framework}.

(** C1. In every run, a call to the loss scaler made in batch [i] directly
    follows the forward pass of that batch, is given the loss divided by
    [ACCUM_ITER], and has [update_grad] set exactly when
    [(i + 1) mod ACCUM_ITER = 0]; every batch whose loss is finite makes
    that call; and an optimizer step is recorded in batch [i] only when
    [(i + 1) mod ACCUM_ITER = 0]. *)
Theorem scale_loss_gates_update (config : Config) (e i : Z) :
  (forall l u,
     In (InBatch e i, LossScaler l u) (journal (final (run config))) ->
     exists loss,
       consecutive (InBatch e i, ModelForward (MASK_RATIO config) loss)
                   (InBatch e i, LossScaler l u)
                   (journal (final (run config)))
       /\ l = idiv loss (ACCUM_ITER config)
       /\ (u = true <-> (i + 1) mod ACCUM_ITER config = 0))
  /\ (forall m loss,
        In (InBatch e i, ModelForward m loss) (journal (final (run config))) ->
        isfinite (item loss) = true ->
        In (InBatch e i,
            LossScaler (idiv loss (ACCUM_ITER config))
                       ((i + 1) mod ACCUM_ITER config =? 0))
           (journal (final (run config))))
  /\ (In (InBatch e i, OptimizerStep) (journal (final (run config))) ->
      (i + 1) mod ACCUM_ITER config = 0).
Proof.
  split; [| split].
  - intros l u Hin.
    destruct (batch_entry config _ e i Hin eq_refl)
      as (before & seg & after & o & HJ & Ha & Hrun & _).
    destruct (batch_run_trained_inv config _ _ _ _ _ _ Hrun Ha I)
      as (loss & Hk & Hfin & -> & -> & Hu).
    exists loss. unfold update_calls in *.
    assert (l = idiv loss (ACCUM_ITER config)
            /\ u = ((i + 1) mod ACCUM_ITER config =? 0)) as [-> ->].
    { destruct ((i + 1) mod ACCUM_ITER config =? 0); cbn in Hu;
        intuition congruence. }
    split; [| split; [reflexivity | apply Z.eqb_eq]].
    rewrite HJ. apply consecutive_in_app.
    eexists (lr_calls _ _ _ _), _. unfold forward_call. cbn. reflexivity.
  - intros m loss Hin Hfin.
    destruct (batch_entry config _ e i Hin eq_refl)
      as (before & seg & after & o & HJ & Ha & Hrun & _).
    destruct (batch_run_forward config _ _ _ _ _ _ _ _ Hrun Ha)
      as (Hk & -> & [(_ & _ & ->) | (Hnot & _)]); [| congruence].
    rewrite HJ. apply in_or_app. right. apply in_or_app. left.
    apply in_or_app. right. right. unfold update_calls. now left.
  - intros Hin.
    destruct (batch_entry config _ e i Hin eq_refl)
      as (before & seg & after & o & HJ & Ha & Hrun & _).
    destruct (batch_run_trained_inv config _ _ _ _ _ _ Hrun Ha I)
      as (loss & Hk & Hfin & -> & -> & Hu).
    unfold update_calls in Hu.
    destruct ((i + 1) mod ACCUM_ITER config =? 0) eqn:E; cbn in Hu.
    + now apply Z.eqb_eq.
    + intuition congruence.
Qed.


(** C3. In every run, the learning rate is adjusted in batch [i] exactly
    when [i mod ACCUM_ITER = 0]: an adjustment recorded in batch [i] implies
    it, and when it holds the adjustment directly precedes the forward pass
    of the batch. The adjustment is made at the fractional epoch
    [i / len(train_dataloader) + epoch] with the configured base rate,
    minimum rate, number of epochs and warm-up epochs, and
    [adjust_learning_rate] writes the rate of the schedule for these into
    every parameter group of the optimizer. *)
Theorem learning_rate_once_per_window (config : Config) (e i : Z) :
  (forall t args,
     In (InBatch e i, LrSchedAdjust t args) (journal (final (run config))) ->
     i mod ACCUM_ITER config = 0
     /\ t = float_add
              (float_div (float_of_int i)
                 (float_of_int
                    (Z.of_nat (loader_len (built_train_dataloader config)))))
              (float_of_int e)
     /\ args = {| args_lr := LEARNING_RATE config;
                  args_min_lr := MINIMUM_LEARNING_RATE config;
                  args_epochs := NUM_EPOCHS config;
                  args_warmup_epochs := WARMUP_EPOCHS config |})
  /\ (forall m loss,
        In (InBatch e i, ModelForward m loss) (journal (final (run config))) ->
        i mod ACCUM_ITER config = 0 ->
        consecutive
          (InBatch e i,
           LrSchedAdjust (epoch_position (built_train_dataloader config) e i)
                         (schedule_args config))
          (InBatch e i, ModelForward m loss)
          (journal (final (run config))))
  /\ (forall train_dataloader w,
        loader_len train_dataloader <> 0%nat ->
        exists w',
          adjust_learning_rate i train_dataloader e config w = Normal tt w'
          /\ param_groups (engine_optimizer (engine w'))
             = map (set_lr (lr_schedule (epoch_position train_dataloader e i)
                                        (schedule_args config)))
                   (param_groups (engine_optimizer (engine w)))
          /\ opt_state (engine_optimizer (engine w'))
             = opt_state (engine_optimizer (engine w))
          /\ engine_model (engine w') = engine_model (engine w)
          /\ engine_grad (engine w') = engine_grad (engine w)
          /\ loss_scaler w' = loss_scaler w).
Proof.
  split; [| split].
  - intros t args Hin.
    destruct (batch_entry config _ e i Hin eq_refl)
      as (before & seg & after & o & HJ & Ha & Hrun & _).
    exact (batch_run_lr config _ _ _ _ _ _ _ _ Hrun Ha).
  - intros m loss Hin Hmod.
    destruct (batch_entry config _ e i Hin eq_refl)
      as (before & seg & after & o & HJ & Ha & Hrun & _).
    apply Z.eqb_eq in Hmod.
    destruct (batch_run_forward config _ _ _ _ _ _ _ _ Hrun Ha)
      as (Hk & -> & [(_ & _ & ->) | (_ & _ & ->)]);
      rewrite HJ; apply consecutive_in_app;
      unfold lr_calls, forward_call; rewrite Hmod;
      eexists [], _; cbn; reflexivity.
  - intros train_dataloader w Hlen.
    unfold adjust_learning_rate, lr_sched_adjust_learning_rate, truediv.
    unfold bind, lift_py, in_globals, ret, raise, gets, modify, record.
    destruct (Z.of_nat (loader_len train_dataloader) =? 0) eqn:Hl;
      [apply Z.eqb_eq in Hl; lia |].
    cbn. eexists. split; [reflexivity |]. cbn. repeat split.
Qed.

(** C4. In every run, a batch whose loss value is not finite (NaN or an
    infinity) ends the process at once: [main] is left by [SystemExit(1)],
    the exit status is 1, the journal ends with the forward pass of that
    batch and the message (nothing is retried), and no checkpoint is
    written for that epoch. A batch whose loss value is finite goes on to
    the loss scaler. *)
Theorem infinite_loss_exits (config : Config) (e i : Z) (m : float)
    (loss : tensor) :
  In (InBatch e i, ModelForward m loss) (journal (final (run config))) ->
  (isfinite (item loss) = false <->
   item loss = S754_nan \/ exists sign, item loss = S754_infinity sign)
  /\ (isfinite (item loss) = false ->
      raised (run config) = Some (SystemExit 1)
      /\ exit_status (raised (run config)) = 1
      /\ (exists before,
            journal (final (run config))
            = before ++ [(InBatch e i, ModelForward m loss);
                         (InBatch e i, PrintLoss (item loss))])
      /\ (forall obj path,
            ~ In (InEpoch e, TorchSave obj path)
                 (journal (final (run config)))))
  /\ (isfinite (item loss) = true ->
      consecutive
        (InBatch e i, ModelForward m loss)
        (InBatch e i,
         LossScaler (idiv loss (ACCUM_ITER config))
                    ((i + 1) mod ACCUM_ITER config =? 0))
        (journal (final (run config)))).
Proof.
  intros Hin. split; [| split].
  - destruct (item loss); cbn; split; intros H;
      try discriminate; try reflexivity; eauto;
      destruct H as [H | [sg H]]; discriminate.
  - intros Hfin.
    destruct (batch_entry config _ e i Hin eq_refl)
      as (before & seg & after & o & HJ & Ha & Hrun & _ & _ & Hbefore
          & Hafter & _).
    destruct (batch_run_forward config _ _ _ _ _ _ _ _ Hrun Ha)
      as (Hk & -> & [(Hfin' & _) | (_ & -> & ->)]); [congruence |].
    destruct Hafter as [Hnone | [Hraised ->]]; [discriminate |].
    rewrite <- Hraised. split; [reflexivity |]. split; [reflexivity |].
    rewrite app_nil_r in HJ. split.
    + exists (before ++ lr_calls config (built_train_dataloader config) e i).
      rewrite HJ. now rewrite <- app_assoc.
    + intros obj path Hsave. rewrite HJ in Hsave.
      apply in_app_or in Hsave. destruct Hsave as [Hsave | Hsave].
      * rewrite Forall_forall in Hbefore.
        specialize (Hbefore _ Hsave eq_refl). cbn in Hbefore.
        intuition discriminate.
      * pose proof (batch_run_sites config _ _ _ _ _ Hrun) as Hs.
        rewrite Forall_forall in Hs. specialize (Hs _ Hsave). discriminate.
  - intros Hfin.
    destruct (batch_entry config _ e i Hin eq_refl)
      as (before & seg & after & o & HJ & Ha & Hrun & _).
    destruct (batch_run_forward config _ _ _ _ _ _ _ _ Hrun Ha)
      as (Hk & -> & [(_ & _ & ->) | (Hnot & _)]); [| congruence].
    rewrite HJ. apply consecutive_in_app.
    eexists (lr_calls _ _ _ _), _. unfold forward_call, update_calls. cbn.
    reflexivity.
Qed.

(** C5. In every run, a checkpoint recorded for epoch [e] implies that an
    output directory is configured, that [e] is an epoch of the run and
    that [e mod CHECKPOINT_INTERVAL = 0] or [e = NUM_EPOCHS - 1]; every such
    epoch that reached its end (the run returned, or a later epoch was
    entered) has its checkpoint, at [<output_dir>/checkpoint-<e>.pth]; and
    without an output directory no checkpoint is ever written. *)
Theorem checkpoint_cadence (config : Config) :
  (forall e obj path,
     In (InEpoch e, TorchSave obj path) (journal (final (run config))) ->
     OUTPUT_DIR config <> None
     /\ start_epoch config <= e < NUM_EPOCHS config
     /\ CHECKPOINT_INTERVAL config <> 0
     /\ (e mod CHECKPOINT_INTERVAL config = 0 \/ e = NUM_EPOCHS config - 1))
  /\ (forall e output_dir,
        start_epoch config <= e < NUM_EPOCHS config ->
        raised (run config) = None
        \/ (exists e', e < e'
              /\ In (InEpoch e', EngineTrain) (journal (final (run config)))) ->
        OUTPUT_DIR config = Some output_dir ->
        e mod CHECKPOINT_INTERVAL config = 0 \/ e = NUM_EPOCHS config - 1 ->
        exists obj,
          In (InEpoch e, TorchSave obj (checkpoint_path output_dir e))
             (journal (final (run config))))
  /\ (OUTPUT_DIR config = None ->
      forall s obj path,
        ~ In (s, TorchSave obj path) (journal (final (run config)))).
Proof.
  split; [| split].
  - intros e obj path Hin.
    destruct (torch_save_entry config _ _ _ Hin)
      as (e' & d & m & o & sc & He & Hrange & Hd & Hdue & _).
    inversion He. subst e'.
    apply checkpoint_due_true in Hdue. tauto.
  - intros e d Hrange Hdone Hd Hcond.
    destruct (completed_epoch config e Hrange Hdone)
      as (before & seg & after & HJ & Hseg & _).
    assert (exists obj,
              In (InEpoch e, TorchSave obj (checkpoint_path d e)) seg)
      as (obj & Hobj).
    { inversion Hseg as [| | u Hu Hdue | u d' m o sc Hu Hdue Hd'].
      - exfalso. unfold checkpoint_due, mod_ in Hdue. rewrite Hd in Hdue.
        destruct (CHECKPOINT_INTERVAL config =? 0) eqn:Hc; [discriminate |].
        injection Hdue as Hdue. apply orb_false_iff in Hdue.
        rewrite !Z.eqb_neq in Hdue. lia.
      - rewrite Hd in Hd'. injection Hd' as <-.
        eexists. apply in_or_app. right. apply in_or_app. right.
        left. reflexivity. }
    exists obj. rewrite HJ.
    apply in_or_app. right. apply in_or_app. now left.
  - intros Hnone s obj path Hin.
    destruct (torch_save_entry config _ _ _ Hin)
      as (e' & d & m & o & sc & _ & _ & Hd & _).
    congruence.
Qed.

(** C6. [save_model] hands [torch.save] a dictionary with exactly the keys
    model, optimizer, epoch, scaler and config, holding the model state,
    the optimizer state, the epoch, the scaler state and the configuration
    it was given, and the path [output_dir / checkpoint-<epoch>.pth]; the
    checkpoint written at the end of an epoch holds the engine's model and
    optimizer and the scaler as they are then; and every checkpoint a run
    records has this form, for the epoch it is recorded in and the
    configured output directory. *)
Theorem checkpoint_contents (config : Config) :
  (forall model output_dir epoch optimizer loss_scaler g,
     save_model model output_dir epoch config optimizer loss_scaler g
     = Normal tt
         (set_journal
            (journal g
             ++ [(here g,
                  TorchSave
                    [ ("model"%string, ModelState model);
                      ("optimizer"%string, OptimizerState optimizer);
                      ("epoch"%string, Int epoch);
                      ("scaler"%string, ScalerState loss_scaler);
                      ("config"%string, ConfigObj config) ]
                    (output_dir
                     ++ [("checkpoint-" ++ str_int epoch ++ ".pth")%string]))])
            g))
  /\ (forall output_dir epoch w,
        OUTPUT_DIR config = Some output_dir ->
        checkpoint_due config epoch = inr true ->
        epoch_checkpoint config epoch w
        = Normal tt
            (set_globals
               (set_journal
                  (journal (globals w)
                   ++ [(here (globals w),
                        TorchSave
                          (checkpoint_of config (engine_model (engine w)) epoch
                             (engine_optimizer (engine w)) (loss_scaler w))
                          (checkpoint_path output_dir epoch))])
                  (globals w))
               w))
  /\ (forall s obj path,
        In (s, TorchSave obj path) (journal (final (run config))) ->
        exists e output_dir m o sc,
          s = InEpoch e
          /\ OUTPUT_DIR config = Some output_dir
          /\ obj = [ ("model"%string, ModelState m);
                     ("optimizer"%string, OptimizerState o);
                     ("epoch"%string, Int e);
                     ("scaler"%string, ScalerState sc);
                     ("config"%string, ConfigObj config) ]
          /\ path = output_dir
                    ++ [("checkpoint-" ++ str_int e ++ ".pth")%string]
          /\ (output_dir <> [] ->
              str_path path
              = (str_path output_dir ++ "/" ++ "checkpoint-" ++ str_int e
                 ++ ".pth")%string)).
Proof.
  split; [| split].
  - reflexivity.
  - intros d e w Hd Hdue.
    unfold checkpoint_due in Hdue. unfold epoch_checkpoint.
    rewrite Hd in *.
    unfold bind, lift_py, in_globals, ret, raise, gets, modify.
    destruct (mod_ e (CHECKPOINT_INTERVAL config)) as [x | r];
      [discriminate |].
    injection Hdue as Hdue. rewrite Hdue. reflexivity.
  - intros s obj path Hin.
    destruct (torch_save_entry config _ _ _ Hin)
      as (e & d & m & o & sc & -> & _ & Hd & _ & -> & ->).
    exists e, d, m, o, sc. repeat split; [exact Hd |].
    intros Hne. unfold checkpoint_path. now apply str_path_joinpath.
Qed.


(** C8. [pretrain_dataloaders] returns two loaders, and both are built on
    the dataset loaded from [<DATAPATH>/train]: the dataset loaded from
    [<DATAPATH>/val] is the dataset of neither. The loaders that
    [init_engine] hands to [main] are these. *)
Theorem loaders_share_train_dataset (config : Config) (datapath : Path)
    (transform_train transform_val : transform) (g : Globals) :
  (exists train_dataloader test_dataloader g',
     pretrain_dataloaders config datapath transform_train transform_val g
     = Normal (train_dataloader, test_dataloader) g'
     /\ dataset train_dataloader
        = _load_imgfolder (joinpath datapath "train") transform_train
     /\ dataset test_dataloader
        = _load_imgfolder (joinpath datapath "train") transform_train
     /\ dataset train_dataloader
        <> _load_imgfolder (joinpath datapath "val") transform_val
     /\ dataset test_dataloader
        <> _load_imgfolder (joinpath datapath "val") transform_val)
  /\ (exists engine train_dataloader test_dataloader g',
        init_engine config g
        = Normal (engine, train_dataloader, test_dataloader) g'
        /\ dataset train_dataloader = built_train_dataset config
        /\ dataset test_dataloader = built_train_dataset config
        /\ root (built_train_dataset config)
           = DATAPATH config ++ ["train"%string]
        /\ root (built_val_dataset config) = DATAPATH config ++ ["val"%string]
        /\ built_train_dataset config <> built_val_dataset config).
Proof.
  split.
  - unfold pretrain_dataloaders, if_VERBOSE, LOGGER_info.
    unfold bind, ret, gets, modify, record.
    destruct g as [[] j h]; cbn;
      (do 3 eexists; split; [reflexivity |]; cbn;
       repeat split; unfold _load_imgfolder, joinpath;
       intros H; injection H as H _; apply app_inv_head in H; discriminate).
  - unfold init_engine, model, optimizer, criterion, pretrain_dataloaders,
      if_VERBOSE, LOGGER_info.
    unfold bind, ret, gets, modify, record.
    destruct g as [[] j h]; cbn;
      do 4 eexists; (split; [reflexivity |]); cbn;
      (repeat split; unfold built_train_dataset, built_val_dataset,
         _load_imgfolder, joinpath;
       intros H; injection H as H _; apply app_inv_head in H; discriminate).
Qed.


(** C10. With a window of [ACCUM_ITER > 0] batches, an epoch that ends
    normally makes exactly [floor(len(train_dataloader) / ACCUM_ITER)]
    optimizer steps, whatever state it starts from, and so does every
    epoch of a run that reached its end. For the batches of the final
    partial window the scaler is called with [update_grad] unset and no
    optimizer step is recorded. The next epoch discards what they
    accumulated: an epoch runs the same whatever gradients it finds, since
    it begins with [zero_grad]. *)
Theorem partial_window_never_stepped (config : Config) :
  0 < ACCUM_ITER config ->
  (forall train_dataloader e w,
     raised (epoch_body config train_dataloader e w) = None ->
     exists t,
       journal (globals (final (epoch_body config train_dataloader e w)))
       = journal (globals w) ++ t
       /\ Z.of_nat (steps_taken e t)
          = Z.of_nat (loader_len train_dataloader) / ACCUM_ITER config)
  /\ (forall e,
        start_epoch config <= e < NUM_EPOCHS config ->
        raised (run config) = None
        \/ (exists e', e < e'
              /\ In (InEpoch e', EngineTrain) (journal (final (run config)))) ->
        Z.of_nat (steps_taken e (journal (final (run config))))
        = Z.of_nat (loader_len (built_train_dataloader config))
          / ACCUM_ITER config)
  /\ (forall e i,
        Z.of_nat (loader_len (built_train_dataloader config))
        / ACCUM_ITER config * ACCUM_ITER config <= i ->
        ~ In (InBatch e i, OptimizerStep) (journal (final (run config)))
        /\ (forall l u,
              In (InBatch e i, LossScaler l u) (journal (final (run config))) ->
              u = false))
  /\ (forall train_dataloader e w g,
        epoch_body config train_dataloader e
          (set_engine (set_engine_grad g (engine w)) w)
        = epoch_body config train_dataloader e w).
Proof.
  intros Hk. split; [| split; [| split]].
  - intros train_dataloader e w Hnormal.
    destruct (epoch_body_appends config train_dataloader e w) as (t & E & R).
    rewrite Hnormal in R. exists t. split; [exact E |].
    now apply (steps_taken_epoch config train_dataloader).
  - intros e Hrange Hdone.
    destruct (completed_epoch config e Hrange Hdone)
      as (before & seg & after & -> & Hseg & Hb & Ha).
    rewrite !steps_taken_app.
    rewrite (steps_taken_other e before Hb), (steps_taken_other e after Ha).
    rewrite Nat.add_0_r. cbn.
    now apply (steps_taken_epoch config (built_train_dataloader config)).
  - intros e i Hi.
    assert (forall a,
              In a (journal (final (run config))) -> fst a = InBatch e i ->
              (i + 1) mod ACCUM_ITER config <> 0) as Hpartial.
    { intros a Hin Hsite.
      destruct (batch_entry config _ e i Hin Hsite)
        as (_ & _ & _ & _ & _ & _ & _ & _ & Hstep & _).
      apply steps_In in Hstep.
      apply partial_window
        with (n := Z.of_nat (loader_len (built_train_dataloader config)));
        lia. }
    split.
    + intros Hin. pose proof (Hpartial _ Hin eq_refl) as Hmod.
      destruct (batch_entry config _ e i Hin eq_refl)
        as (before & seg & after & o & HJ & Ha & Hrun & _).
      destruct (batch_run_trained_inv config _ _ _ _ _ _ Hrun Ha I)
        as (loss & _ & _ & _ & _ & Hu).
      unfold update_calls in Hu. apply Z.eqb_neq in Hmod. rewrite Hmod in Hu.
      cbn in Hu. intuition discriminate.
    + intros l u Hin. pose proof (Hpartial _ Hin eq_refl) as Hmod.
      destruct (batch_entry config _ e i Hin eq_refl)
        as (before & seg & after & o & HJ & Ha & Hrun & _).
      destruct (batch_run_trained_inv config _ _ _ _ _ _ Hrun Ha I)
        as (loss & _ & _ & _ & _ & Hu).
      unfold update_calls in Hu. apply Z.eqb_neq in Hmod. rewrite Hmod in Hu.
      cbn in Hu. intuition congruence.
  - reflexivity.
Qed.

End Claims.

(** ** The sample runs *)

Ltac find_entry := vm_compute; repeat first [left; reflexivity | right].

(** In the steady sample the second batch of the first epoch closes a
    window: the optimizer steps there, and [(1 + 1) mod 2 = 0]. *)
Lemma scale_loss_gates_update_witness :
  In (InBatch 0 1, OptimizerStep)
     (journal (final (@run scalar_data steady sample_config)))
  /\ (1 + 1) mod ACCUM_ITER sample_config = 0.
Proof.
  assert (In (InBatch 0 1, OptimizerStep)
             (journal (final (@run scalar_data steady sample_config))))
    as H by find_entry.
  split; [exact H |].
  exact (proj2 (proj2 (@scale_loss_gates_update scalar_data steady
                         sample_config 0 1)) H).
Defined.


(** The third batch of the first epoch opens a window: the rate is
    adjusted there, at the fractional epoch [2 / 3 + 0]. *)
Lemma learning_rate_once_per_window_witness :
  In (InBatch 0 2,
      LrSchedAdjust
        (@epoch_position scalar_data steady
           (@built_train_dataloader scalar_data sample_config) 0 2)
        (schedule_args sample_config))
     (journal (final (@run scalar_data steady sample_config)))
  /\ 2 mod ACCUM_ITER sample_config = 0.
Proof.
  assert (In (InBatch 0 2,
              LrSchedAdjust
                (@epoch_position scalar_data steady
                   (@built_train_dataloader scalar_data sample_config) 0 2)
                (schedule_args sample_config))
             (journal (final (@run scalar_data steady sample_config))))
    as H by find_entry.
  split; [exact H |].
  exact (proj1 (proj1 (@learning_rate_once_per_window scalar_data steady
                         sample_config 0 2) _ _ H)).
Defined.

(** The NaN of the diverging sample ends the run with [SystemExit(1)]. *)
Lemma infinite_loss_exits_witness :
  In (InBatch 1 1, @ModelForward scalar_data three_quarters S754_nan)
     (journal (final (@run scalar_data diverging sample_config)))
  /\ raised (@run scalar_data diverging sample_config) = Some (SystemExit 1).
Proof.
  assert (In (InBatch 1 1, @ModelForward scalar_data three_quarters S754_nan)
             (journal (final (@run scalar_data diverging sample_config))))
    as H by find_entry.
  split; [exact H |].
  exact (proj1 (proj1 (proj2 (@infinite_loss_exits scalar_data diverging
                                sample_config 1 1 three_quarters S754_nan H))
                      eq_refl)).
Defined.

(** The steady sample returns, and its last epoch has its checkpoint. *)
Lemma checkpoint_cadence_witness :
  raised (@run scalar_data steady sample_config) = None
  /\ exists obj,
       In (InEpoch 2, TorchSave obj (checkpoint_path ["out"%string] 2))
          (journal (final (@run scalar_data steady sample_config))).
Proof.
  assert (raised (@run scalar_data steady sample_config) = None) as H
    by (vm_compute; reflexivity).
  split; [exact H |].
  apply (proj1 (proj2 (@checkpoint_cadence scalar_data steady sample_config))
           2 ["out"%string]).
  - split; [discriminate | reflexivity].
  - left. exact H.
  - reflexivity.
  - right. reflexivity.
Defined.

(** The checkpoint of the first epoch of the sample, written from the
    objects as they stand. *)
Lemma checkpoint_contents_witness :
  @checkpoint_due scalar_data sample_config 0 = inr true
  /\ raised (@epoch_checkpoint scalar_data sample_config 0 sample_world)
     = None.
Proof.
  assert (@checkpoint_due scalar_data sample_config 0 = inr true) as H
    by (vm_compute; reflexivity).
  split; [exact H |].
  rewrite (proj1 (proj2 (@checkpoint_contents scalar_data steady sample_config))
             ["out"%string] 0 sample_world eq_refl H).
  reflexivity.
Defined.




(** The first epoch of the steady sample: three batches, windows of two,
    one optimizer step. *)
Lemma partial_window_never_stepped_witness :
  0 < ACCUM_ITER sample_config
  /\ Z.of_nat (steps_taken 0
                 (journal (final (@run scalar_data steady sample_config))))
     = Z.of_nat (@loader_len scalar_data steady
                   (@built_train_dataloader scalar_data sample_config))
       / ACCUM_ITER sample_config.
Proof.
  assert (0 < ACCUM_ITER sample_config) as H by reflexivity.
  split; [exact H |].
  apply (proj1 (proj2 (@partial_window_never_stepped scalar_data steady
                         sample_config H)) 0).
  - split; [discriminate | reflexivity].
  - left. vm_compute. reflexivity.
Defined.

(** * Further properties of the script *)

(** ** Loops that raise, and loops over nothing *)

Lemma loop_run_nil {E X : Type}
    (step : X -> list E -> option exception -> Prop) t o :
  loop_run step [] t o -> t = [] /\ o = None.
Proof. intros H. inversion H. now split. Qed.

(** A loop that raised ends with the journal of the iteration that raised. *)
Lemma loop_run_raised {E X : Type}
    (step : X -> list E -> option exception -> Prop) xs t x :
  loop_run step xs t (Some x) ->
  exists xs1 y xs2 t1 seg,
    xs = xs1 ++ y :: xs2 /\ t = t1 ++ seg
    /\ loop_run step xs1 t1 None /\ step y seg (Some x).
Proof.
  intros H. remember (Some x) as o eqn:Ho. revert Ho.
  induction H as [| y rest t1 t2 o Hstep Hrest IH | y rest t e Hstep];
    intros Ho; subst.
  - discriminate.
  - destruct (IH eq_refl) as (xs1 & z & xs2 & u1 & seg & -> & -> & H1 & Hz).
    exists (y :: xs1), z, xs2, (t1 ++ u1), seg.
    repeat split; try assumption.
    + now rewrite <- app_assoc.
    + now apply loop_next.
  - injection Ho as ->. exists [], y, rest, [], t.
    repeat split; try assumption. constructor.
Qed.

(** A loop whose iterations cannot raise ends normally. *)
Lemma loop_run_returns {E X : Type}
    (step : X -> list E -> option exception -> Prop) xs t o :
  (forall y seg x, step y seg (Some x) -> False) ->
  loop_run step xs t o -> o = None.
Proof.
  intros Hsafe. induction 1 as [| | y rest t e Hstep]; try easy.
  now destruct (Hsafe _ _ _ Hstep).
Qed.

(** ** The journal before the first epoch *)

Section Exact.

Context {O : Opaque} {F : Framework}.

Variable config : Config.

Lemma init_engine_exact g :
  here g = Startup ->
  init_engine config g
  = Normal (built_engine config, built_train_dataloader config,
            built_test_dataloader config)
      (set_journal (journal g ++ (if g_VERBOSE g then factory_log else []))
                   g).
Proof.
  intros Hhere.
  unfold init_engine, model, optimizer, criterion, pretrain_dataloaders,
    if_VERBOSE, LOGGER_info.
  unfold bind, ret, gets, modify, record.
  destruct g as [v j h]. cbn in *. subst h.
  destruct v; cbn.
  - unfold set_journal. cbn. rewrite <- !app_assoc. reflexivity.
  - unfold set_journal. cbn. rewrite app_nil_r. reflexivity.
Qed.

Lemma resume_exact w :
  here (globals w) = Startup ->
  g_VERBOSE (globals w) = VERBOSE config ->
  exists w1,
    (if RESUME config then resume_model config else ret 0) w
    = Normal
        (if RESUME config then
           args_start_epoch
             (fst (load_model
                     {| args_resume := RESUME_ADDRESS config;
                        args_start_epoch := RESUME_START_EPOCH config |}
                     (engine_model (engine w), engine_optimizer (engine w),
                      loss_scaler w)))
         else 0) w1
    /\ journal (globals w1)
       = journal (globals w)
         ++ (if RESUME config then resume_calls config else [])
    /\ here (globals w1) = Startup.
Proof.
  intros Hhere Hv. destruct (RESUME config).
  - unfold resume_model, misc_load_model, if_VERBOSE, LOGGER_info,
      resume_calls.
    unfold bind, in_globals, ret, gets, modify, record. cbn.
    destruct (load_model _ _) as [args' [[m' o'] s']]. cbn.
    rewrite <- Hv.
    destruct (g_VERBOSE (globals w)); cbn; eexists;
      (split; [reflexivity |]); cbn; rewrite ?Hhere;
      (split; [rewrite <- ?app_assoc; reflexivity | reflexivity]).
  - exists w. rewrite app_nil_r. now repeat split.
Qed.

Lemma train_exact train_dataloader w :
  here (globals w) = Startup ->
  g_VERBOSE (globals w) = VERBOSE config ->
  exists t,
    journal (globals (final (train config train_dataloader w)))
    = journal (globals w)
      ++ (if RESUME config then resume_calls config else [])
      ++ [(Startup, LoggerInfo "Start pre-training for")]
      ++ t ++ teardown (raised (train config train_dataloader w))
    /\ epochs_run config train_dataloader
         (if RESUME config then
            args_start_epoch
              (fst (load_model
                      {| args_resume := RESUME_ADDRESS config;
                         args_start_epoch := RESUME_START_EPOCH config |}
                      (engine_model (engine w), engine_optimizer (engine w),
                       loss_scaler w)))
          else 0)
         t (raised (train config train_dataloader w)).
Proof.
  intros Hhere Hv.
  remember (train config train_dataloader w) as r eqn:Hr.
  unfold train in Hr.
  destruct (resume_exact w Hhere Hv) as [w1 [Hrun [Hj Hh]]].
  unfold bind at 1 in Hr. rewrite Hrun in Hr.
  unfold bind at 1, in_globals at 1, LOGGER_info at 1, record at 1, modify in Hr.
  cbn in Hr.
  match type of Hr with
  | context [bind (for_each ?xs ?b) _ ?w0] =>
      destruct (for_each_appends xs b
                  (epoch_run config train_dataloader)
                  (fun x _ => epoch_body_appends config train_dataloader x) w0)
        as [t [E R]];
      unfold bind in Hr; destruct (for_each xs b w0) as [[] w2 | e w2]
  end; cbn in *; subst r; cbn; exists t; (split; [| exact R]).
  - rewrite E, Hj, Hh. now rewrite <- !app_assoc.
  - rewrite E, Hj, Hh. rewrite app_nil_r. now rewrite <- !app_assoc.
Qed.

(** The journal of a run: the start-up calls, the epochs, the closing log
    line of a run that returns. *)
Lemma run_exact :
  exists t,
    journal (final (run config))
    = startup_calls config ++ t ++ teardown (raised (run config))
    /\ epochs_run config (built_train_dataloader config) (start_epoch config)
         t (raised (run config)).
Proof.
  remember (run config) as r eqn:Hr.
  unfold run, main, init_global_states in Hr.
  unfold bind at 1, modify at 1 in Hr.
  unfold bind in Hr.
  rewrite (init_engine_exact (set_VERBOSE (VERBOSE config) process_start)
             eq_refl) in Hr.
  cbn in Hr. unfold with_objects in Hr.
  match type of Hr with
  | context [train _ _ ?w0] =>
      destruct (train_exact (built_train_dataloader config) w0
                  eq_refl eq_refl) as [t [E R]];
      destruct (train config (built_train_dataloader config) w0)
        as [[] w1 | e w1]
  end; cbn in *; subst r; cbn; exists t;
    (split; [rewrite E; unfold startup_calls; now rewrite <- ?app_assoc
            | exact R]).
Qed.

End Exact.

(** ** How a run can end *)

Section Endings.

Context {O : Opaque} {F : Framework}.

Variable config : Config.

Lemma steps_cons train_dataloader :
  loader_len train_dataloader <> 0%nat ->
  exists rest, steps train_dataloader = 0 :: rest.
Proof.
  unfold steps. destruct (loader_len train_dataloader) as [| n]; [easy |].
  intros _. cbn. eauto.
Qed.

Lemma steps_empty train_dataloader :
  loader_len train_dataloader = 0%nat -> steps train_dataloader = [].
Proof. unfold steps. now intros ->. Qed.

Lemma range_cons a b : a < b -> exists rest, range a b = a :: rest.
Proof.
  unfold range. intros H.
  destruct (Z.to_nat (b - a)) as [| n] eqn:E; [lia |].
  cbn. rewrite Z.add_0_r. eauto.
Qed.

Lemma range_empty a b : b <= a -> range a b = [].
Proof.
  unfold range. intros H. now replace (Z.to_nat (b - a)) with 0%nat by lia.
Qed.

Lemma checkpoint_due_raises e x :
  checkpoint_due config e = inl x ->
  x = ZeroDivisionError /\ OUTPUT_DIR config <> None
  /\ CHECKPOINT_INTERVAL config = 0.
Proof.
  unfold checkpoint_due, mod_.
  destruct (OUTPUT_DIR config) as [d |]; [| discriminate].
  destruct (CHECKPOINT_INTERVAL config =? 0) eqn:Hc; [| discriminate].
  apply Z.eqb_eq in Hc. intros H. injection H as <-.
  repeat split; [discriminate | exact Hc].
Qed.

(** With a zero window no batch gets anywhere. *)
Lemma batch_loop_zero train_dataloader e i rest t ob :
  ACCUM_ITER config = 0 ->
  loop_run (batch_run config train_dataloader e) (i :: rest) t ob ->
  t = [] /\ ob = Some ZeroDivisionError.
Proof.
  intros Hk H.
  inversion H as [| ? ? ? ? ? Hstep | ? ? ? ? Hstep]; subst;
    inversion Hstep; subst; try contradiction.
  now split.
Qed.

(** The batch loop raises for a zero window, or for a loss that is not
    finite, whose forward pass and message then end its journal. *)
Lemma batch_loop_raised train_dataloader e xs t x :
  loop_run (batch_run config train_dataloader e) xs t (Some x) ->
  (x = ZeroDivisionError /\ ACCUM_ITER config = 0)
  \/ (x = SystemExit 1
      /\ exists t1 i loss,
           t = t1 ++ [forward_call config e i loss;
                      (InBatch e i, PrintLoss (item loss))]
           /\ isfinite (item loss) = false).
Proof.
  intros H.
  destruct (loop_run_raised _ _ _ _ H)
    as (xs1 & i & xs2 & t1 & seg & _ & -> & _ & Hstep).
  inversion Hstep as [Hk | loss Hk Hfin |]; subst.
  - left. now split.
  - right. split; [reflexivity |].
    exists (t1 ++ lr_calls config train_dataloader e i), i, loss.
    split; [now rewrite <- app_assoc | exact Hfin].
Qed.

Lemma epoch_run_raised train_dataloader e seg x :
  epoch_run config train_dataloader e seg (Some x) ->
  (x = ZeroDivisionError
   /\ (ACCUM_ITER config = 0
       \/ (OUTPUT_DIR config <> None /\ CHECKPOINT_INTERVAL config = 0)))
  \/ (x = SystemExit 1
      /\ exists s1 i loss,
           seg = s1 ++ [forward_call config e i loss;
                        (InBatch e i, PrintLoss (item loss))]
           /\ isfinite (item loss) = false).
Proof.
  intros H. inversion H as [t y Hloop | t y Hloop Hdue | |]; subst.
  - destruct (batch_loop_raised _ _ _ _ _ Hloop)
      as [[-> Hk] | [-> (t1 & i & loss & -> & Hfin)]].
    + left. split; [reflexivity | now left].
    + right. split; [reflexivity |].
      exists (epoch_start e ++ t1), i, loss.
      split; [now rewrite <- app_assoc | exact Hfin].
  - destruct (checkpoint_due_raises _ _ Hdue) as (-> & Hd & Hc).
    left. split; [reflexivity | now right].
Qed.

(** A run that raised: why, and how its journal ends. *)
Lemma run_raised x :
  raised (run config) = Some x ->
  (x = ZeroDivisionError
   /\ (ACCUM_ITER config = 0
       \/ (OUTPUT_DIR config <> None /\ CHECKPOINT_INTERVAL config = 0)))
  \/ (x = SystemExit 1
      /\ exists before e i loss,
           journal (final (run config))
           = before ++ [forward_call config e i loss;
                        (InBatch e i, PrintLoss (item loss))]
           /\ isfinite (item loss) = false).
Proof.
  intros Hx. destruct (run_exact config) as (t & HJ & Hrun).
  rewrite Hx in *. unfold epochs_run in Hrun. unfold teardown in HJ.
  rewrite app_nil_r in HJ.
  destruct (loop_run_raised _ _ _ _ Hrun)
    as (xs1 & e & xs2 & t1 & seg & _ & -> & _ & Hstep).
  destruct (epoch_run_raised _ _ _ _ Hstep)
    as [Hz | [-> (s1 & i & loss & -> & Hfin)]]; [now left |].
  right. split; [reflexivity |].
  exists (startup_calls config ++ t1 ++ s1), e, i, loss.
  split; [rewrite HJ; now rewrite <- !app_assoc | exact Hfin].
Qed.

(** X1. A zero [ACCUM_ITER] is not rejected when the configuration is
    read: with a loader that has batches and an epoch left to run, the
    first [data_iter_step % ACCUM_ITER] raises [ZeroDivisionError]. The
    run has then recorded its start-up calls and the [train()] and
    [zero_grad()] of its first epoch, and nothing else: no rate
    adjustment, no forward pass, no checkpoint. *)
Theorem zero_accum_iter_raises :
  ACCUM_ITER config = 0 ->
  loader_len (built_train_dataloader config) <> 0%nat ->
  start_epoch config < NUM_EPOCHS config ->
  raised (run config) = Some ZeroDivisionError
  /\ exit_status (raised (run config)) = 1
  /\ journal (final (run config))
     = startup_calls config ++ epoch_start (start_epoch config).
Proof.
  intros Hk Hlen Hepochs.
  destruct (run_exact config) as (t & HJ & Hrun).
  unfold epochs_run in Hrun.
  destruct (range_cons _ _ Hepochs) as (rest & Hrange).
  destruct (steps_cons _ Hlen) as (irest & Hsteps).
  rewrite Hrange in Hrun.
  assert (forall seg o,
            epoch_run config (built_train_dataloader config)
                      (start_epoch config) seg o ->
            seg = epoch_start (start_epoch config)
            /\ o = Some ZeroDivisionError) as Hfirst.
  { intros seg o Hseg.
    destruct (epoch_run_parts config _ _ _ _ Hseg)
      as (u & ob & tail & -> & Hloop & _ & Hob).
    rewrite Hsteps in Hloop.
    destruct (batch_loop_zero _ _ _ _ _ _ Hk Hloop) as [-> ->].
    destruct (Hob _ eq_refl) as [-> ->]. now split. }
  inversion Hrun as [| ? ? t1 t2 ? Hstep | ? ? ? x Hstep]; subst.
  - destruct (Hfirst _ _ Hstep) as [_ Hno]. discriminate.
  - destruct (Hfirst _ _ Hstep) as [-> Hx]. injection Hx as ->.
    match goal with H : Some _ = raised _ |- _ => rewrite <- H in * end.
    unfold teardown in HJ. rewrite app_nil_r in HJ. now repeat split.
Qed.

(** X2. When no epoch is left ([NUM_EPOCHS <= start_epoch], as after a
    resume past the end), the run returns without touching the engine: it
    records its start-up calls and the closing log line, and nothing
    else. *)
Theorem no_epoch_left_returns :
  NUM_EPOCHS config <= start_epoch config ->
  raised (run config) = None
  /\ exit_status (raised (run config)) = 0
  /\ journal (final (run config))
     = startup_calls config ++ [(Teardown, LoggerInfo "Training time")].
Proof.
  intros Hdone.
  destruct (run_exact config) as (t & HJ & Hrun).
  unfold epochs_run in Hrun. rewrite (range_empty _ _ Hdone) in Hrun.
  destruct (loop_run_nil _ _ _ Hrun) as [-> Ho].
  rewrite Ho in *. now repeat split.
Qed.

(** X3. [ZeroDivisionError] leaves [main] only for a configuration with
    [ACCUM_ITER = 0], or with an output directory and
    [CHECKPOINT_INTERVAL = 0]. *)
Theorem zero_division_only_from_config :
  raised (run config) = Some ZeroDivisionError ->
  ACCUM_ITER config = 0
  \/ (OUTPUT_DIR config <> None /\ CHECKPOINT_INTERVAL config = 0).
Proof.
  intros Hx. destruct (run_raised _ Hx) as [[_ H] | [H _]];
    [exact H | discriminate].
Qed.

(** X4. [sys.exit] is only ever called with status 1, and the run ends by
    it exactly when a forward pass returned a loss that is not finite; a
    run that returns has seen finite losses only. *)
Theorem exit_iff_divergence :
  (forall code, raised (run config) = Some (SystemExit code) -> code = 1)
  /\ (raised (run config) = Some (SystemExit 1) <->
      exists e i m loss,
        In (InBatch e i, ModelForward m loss) (journal (final (run config)))
        /\ isfinite (item loss) = false)
  /\ (raised (run config) = None ->
      forall e i m loss,
        In (InBatch e i, ModelForward m loss) (journal (final (run config))) ->
        isfinite (item loss) = true).
Proof.
  assert (forall e i m loss,
            In (InBatch e i, ModelForward m loss)
               (journal (final (run config))) ->
            isfinite (item loss) = false ->
            raised (run config) = Some (SystemExit 1)) as Hdiverge.
  { intros e i m loss Hin Hfin.
    destruct (batch_entry config _ e i Hin eq_refl)
      as (before & seg & after & o & HJ & Ha & Hrun & _ & _ & _ & Hafter & _).
    destruct (batch_run_forward config _ _ _ _ _ _ _ _ Hrun Ha)
      as (_ & _ & [(Hfin' & _) | (_ & -> & _)]); [congruence |].
    destruct Hafter as [Hnone | [Hr _]]; [discriminate | now symmetry]. }
  split; [| split].
  - intros code Hx.
    destruct (run_raised _ Hx) as [[H _] | [H _]]; [discriminate |].
    now injection H.
  - split.
    + intros Hx.
      destruct (run_raised _ Hx) as [[H _] | [_ (b & e & i & loss & HJ & Hfin)]];
        [discriminate |].
      exists e, i, (MASK_RATIO config), loss. split; [| exact Hfin].
      rewrite HJ. apply in_or_app. right. now left.
    + intros (e & i & m & loss & Hin & Hfin). eapply Hdiverge; eassumption.
  - intros Hnone e i m loss Hin.
    destruct (isfinite (item loss)) eqn:Hfin; [reflexivity |].
    rewrite (Hdiverge _ _ _ _ Hin Hfin) in Hnone. discriminate.
Qed.

(** X5. The closing log line ("Training time") is written exactly when
    the run returns, and is then the last entry of the journal; nothing
    else is ever recorded after the epochs. *)
Theorem training_time_logged_iff_returned :
  (In (Teardown, LoggerInfo "Training time") (journal (final (run config)))
   <-> raised (run config) = None)
  /\ (raised (run config) = None ->
      exists before,
        journal (final (run config))
        = before ++ [(Teardown, LoggerInfo "Training time")])
  /\ (forall c,
        In (Teardown, c) (journal (final (run config))) ->
        c = LoggerInfo "Training time").
Proof.
  assert (forall c,
            In (Teardown, c) (journal (final (run config))) ->
            c = LoggerInfo "Training time" /\ raised (run config) = None)
    as Hlast.
  { intros c Hin.
    destruct (entry_cases config _ Hin) as [[H _] | [H | (e & H)]].
    - discriminate.
    - destruct (raised (run config)); cbn in H; [destruct H |].
      destruct H as [H | []]. injection H as <-. now split.
    - destruct H. }
  split; [| split].
  - split; [intros Hin; now destruct (Hlast _ Hin) |].
    intros Hnone. destruct (run_exact config) as (t & -> & _).
    rewrite Hnone. apply in_or_app. right. apply in_or_app. right. now left.
  - intros Hnone. destruct (run_exact config) as (t & -> & _).
    rewrite Hnone. exists (startup_calls config ++ t).
    now rewrite <- app_assoc.
  - intros c Hin. now destruct (Hlast _ Hin).
Qed.

End Endings.

(** ** Degenerate configurations, logging and resuming *)

Section Corners.

Context {O : Opaque} {F : Framework}.

Variable config : Config.

Lemma startup_calls_kind : Forall startup_entry (startup_calls config).
Proof.
  unfold startup_calls, resume_calls, factory_log.
  destruct (VERBOSE config), (RESUME config); cbn; repeat constructor.
Qed.

Lemma batch_run_calls train_dataloader e i seg o :
  batch_run config train_dataloader e i seg o ->
  Forall (fun a => match snd a with
                   | LoggerInfo _ | MiscLoadModel _ => False
                   | _ => True
                   end) seg.
Proof.
  intros H. destruct H; unfold lr_calls, update_calls, forward_call;
    repeat match goal with
    | |- context [if ?b then _ else _] => destruct b
    end; repeat constructor.
Qed.

(** The epochs record neither log lines nor a load. *)
Lemma epochs_run_calls train_dataloader xs t o :
  loop_run (epoch_run config train_dataloader) xs t o ->
  Forall (fun a => match snd a with
                   | LoggerInfo _ | MiscLoadModel _ => False
                   | _ => True
                   end) t.
Proof.
  intros H.
  eapply Forall_impl;
    [| apply (loop_run_Forall _
                (fun (_ : Z) a => match snd a with
                                  | LoggerInfo _ | MiscLoadModel _ => False
                                  | _ => True
                                  end) _ _ _) with (2 := H)].
  - now intros a (_ & _ & Ha).
  - intros e seg o' Hseg.
    destruct (epoch_run_parts config _ _ _ _ Hseg)
      as (u & ob & tail & -> & Hloop & Htail & _).
    apply Forall_app. split; [repeat constructor |].
    apply Forall_app. split.
    + eapply Forall_impl;
        [| apply (loop_run_Forall _
                    (fun (_ : Z) a => match snd a with
                                      | LoggerInfo _ | MiscLoadModel _ => False
                                      | _ => True
                                      end) _ _ _) with (2 := Hloop)].
      * now intros a (_ & _ & Ha).
      * intros i seg o''. apply batch_run_calls.
    + eapply Forall_impl; [| exact Htail].
      now intros a (obj & path & ->).
Qed.

(** X6. A loader without batches makes every epoch an empty one: no call
    is ever recorded inside a batch, the run cannot end by [sys.exit], and
    [ACCUM_ITER] is never read, so that even [ACCUM_ITER = 0] is harmless:
    unless the checkpoint condition divides by zero, the run returns after
    entering every epoch from [start_epoch] to [NUM_EPOCHS - 1]. *)
Theorem empty_loader_runs_empty_epochs :
  loader_len (built_train_dataloader config) = 0%nat ->
  (forall a e i,
     In a (journal (final (run config))) -> fst a <> InBatch e i)
  /\ (forall code, raised (run config) <> Some (SystemExit code))
  /\ (OUTPUT_DIR config = None \/ CHECKPOINT_INTERVAL config <> 0 ->
      raised (run config) = None
      /\ epochs_entered (journal (final (run config)))
         = range (start_epoch config) (NUM_EPOCHS config)).
Proof.
  intros Hlen. pose proof (steps_empty _ Hlen) as Hsteps.
  assert (forall a e i,
            In a (journal (final (run config))) -> fst a <> InBatch e i)
    as Hnone.
  { intros a e i Hin Hsite.
    destruct (batch_entry config _ e i Hin Hsite)
      as (_ & _ & _ & _ & _ & _ & _ & _ & Hstep & _).
    rewrite Hsteps in Hstep. destruct Hstep. }
  split; [exact Hnone | split].
  - intros code Hx.
    destruct (run_raised config _ Hx)
      as [[H _] | [_ (b & e & i & loss & HJ & _)]]; [discriminate |].
    apply (Hnone (forward_call config e i loss) e i); [| reflexivity].
    rewrite HJ. apply in_or_app. right. now left.
  - intros Hsafe.
    assert (raised (run config) = None) as Hr.
    { destruct (run_exact config) as (t & _ & Hrun).
      unfold epochs_run in Hrun.
      apply (loop_run_returns _ _ _ _) with (2 := Hrun).
      intros e seg x Hseg.
      inversion Hseg as [u y Hloop | u y Hloop Hdue | |]; subst.
      - rewrite Hsteps in Hloop.
        destruct (loop_run_nil _ _ _ Hloop) as [_ H]. discriminate.
      - destruct (checkpoint_due_raises config _ _ Hdue) as (_ & Hd & Hc).
        destruct Hsafe; contradiction. }
    split; [exact Hr |].
    destruct (epochs_entered_run config) as (n & _ & Hall). now apply Hall.
Qed.

(** X7. With an output directory, [CHECKPOINT_INTERVAL = 0] is not
    rejected either: [epoch % CHECKPOINT_INTERVAL] is evaluated before
    [epoch + 1 == NUM_EPOCHS], so the run never gets past its first epoch
    and never writes a checkpoint, not even for a final epoch. It ends by
    [ZeroDivisionError], or by the exit of a diverging batch. *)
Theorem zero_checkpoint_interval_raises :
  OUTPUT_DIR config <> None ->
  CHECKPOINT_INTERVAL config = 0 ->
  start_epoch config < NUM_EPOCHS config ->
  (raised (run config) = Some ZeroDivisionError
   \/ raised (run config) = Some (SystemExit 1))
  /\ epochs_entered (journal (final (run config))) = [start_epoch config]
  /\ (forall s obj path,
        ~ In (s, TorchSave obj path) (journal (final (run config)))).
Proof.
  intros Hd Hc Hepochs.
  assert (forall e, exists x, checkpoint_due config e = inl x) as Hdue.
  { intros e. unfold checkpoint_due, mod_.
    destruct (OUTPUT_DIR config); [| contradiction].
    rewrite Hc. cbn. eauto. }
  destruct (run_exact config) as (t & HJ & Hrun).
  unfold epochs_run in Hrun.
  destruct (range_cons _ _ Hepochs) as (rest & Hrange).
  rewrite Hrange in Hrun.
  assert (exists x,
            raised (run config) = Some x
            /\ epoch_run config (built_train_dataloader config)
                 (start_epoch config) t (Some x)) as (x & Hx & Hseg).
  { inversion Hrun as [| ? ? t1 t2 ? Hstep | ? ? ? x Hstep]; subst.
    - destruct (Hdue (start_epoch config)) as (y & Hy).
      inversion Hstep; congruence.
    - exists x. now split. }
  split; [| split].
  - destruct (epoch_run_raised config _ _ _ _ Hseg) as [[-> _] | [-> _]];
      [now left | now right].
  - rewrite HJ, Hx, !epochs_entered_app. cbn. rewrite app_nil_r.
    rewrite (epochs_entered_epoch config _ _ _ _ Hseg).
    rewrite (epochs_entered_none (startup_calls config)); [reflexivity |].
    eapply Forall_impl; [| exact startup_calls_kind].
    intros [s c] [Hs _] e. cbn in Hs. subst s. discriminate.
  - intros s obj path Hin.
    destruct (torch_save_entry config _ _ _ Hin)
      as (e & d & m & o & sc & _ & _ & _ & Htrue & _).
    destruct (Hdue e) as (y & Hy). congruence.
Qed.

(** X8. [init_global_states] takes effect before the factories run, and
    [VERBOSE] gates every log line but two: a run with [VERBOSE] unset
    logs only "Start pre-training" and, when it returns, "Training time"
    (nothing from the factories, nothing about a resume); a run with
    [VERBOSE] set begins with the six lines of the factories. *)
Theorem verbose_gates_the_log :
  (VERBOSE config = false ->
   forall s msg,
     In (s, LoggerInfo msg) (journal (final (run config))) ->
     (s = Startup /\ msg = "Start pre-training for"%string)
     \/ (s = Teardown /\ msg = "Training time"%string))
  /\ (VERBOSE config = true ->
      exists rest, journal (final (run config)) = factory_log ++ rest).
Proof.
  destruct (run_exact config) as (t & HJ & Hrun).
  split.
  - intros Hv s msg Hin. rewrite HJ in Hin.
    apply in_app_or in Hin. destruct Hin as [Hin | Hin].
    + left. unfold startup_calls, resume_calls in Hin. rewrite Hv in Hin.
      destruct (RESUME config); cbn in Hin;
        repeat (destruct Hin as [Hin | Hin];
                [try discriminate; now injection Hin as <- <- |]);
        destruct Hin.
    + apply in_app_or in Hin. destruct Hin as [Hin | Hin].
      * pose proof (epochs_run_calls _ _ _ _ Hrun) as Hk.
        rewrite Forall_forall in Hk. destruct (Hk _ Hin).
      * right. destruct (raised (run config)); cbn in Hin; [destruct Hin |].
        destruct Hin as [Hin | []]. now injection Hin as <- <-.
  - intros Hv. rewrite HJ. unfold startup_calls. rewrite Hv.
    rewrite <- app_assoc. eauto.
Qed.

(** X9. [misc.load_model] is called exactly when [RESUME] is set: once,
    before the first epoch, with the configured address and start epoch.
    Without [RESUME] nothing is ever loaded. *)
Theorem load_model_only_on_resume :
  (forall s args,
     In (s, MiscLoadModel args) (journal (final (run config))) ->
     RESUME config = true /\ s = Startup
     /\ args = {| args_resume := RESUME_ADDRESS config;
                  args_start_epoch := RESUME_START_EPOCH config |})
  /\ (RESUME config = true ->
      exists before after,
        journal (final (run config))
        = before
          ++ (Startup,
              MiscLoadModel
                {| args_resume := RESUME_ADDRESS config;
                   args_start_epoch := RESUME_START_EPOCH config |})
             :: after
        /\ Forall (fun a => forall x, snd a <> MiscLoadModel x) before
        /\ Forall (fun a => forall x, snd a <> MiscLoadModel x) after
        /\ Forall (fun a => fst a = Startup) before).
Proof.
  destruct (run_exact config) as (t & HJ & Hrun).
  pose proof (epochs_run_calls _ _ _ _ Hrun) as Hk.
  split.
  - intros s args Hin. rewrite HJ in Hin.
    apply in_app_or in Hin. destruct Hin as [Hin | Hin].
    + unfold startup_calls, resume_calls, factory_log in Hin.
      destruct (VERBOSE config), (RESUME config); cbn in Hin;
        repeat (destruct Hin as [Hin | Hin];
                [try discriminate; now injection Hin as <- <- |]);
        destruct Hin.
    + apply in_app_or in Hin. destruct Hin as [Hin | Hin].
      * rewrite Forall_forall in Hk. destruct (Hk _ Hin).
      * destruct (raised (run config)); cbn in Hin; [destruct Hin |].
        destruct Hin as [Hin | []]. discriminate.
  - intros Hr. rewrite HJ. unfold startup_calls, resume_calls. rewrite Hr.
    exists (if VERBOSE config then factory_log else []).
    exists ((if VERBOSE config
             then [(Startup, LoggerInfo "Resume model from")] else [])
            ++ [(Startup, LoggerInfo "Start pre-training for")]
            ++ t ++ teardown (raised (run config))).
    split; [rewrite <- !app_assoc; reflexivity |].
    split; [| split].
    + destruct (VERBOSE config); repeat constructor; discriminate.
    + apply Forall_app. split.
      * destruct (VERBOSE config); repeat constructor; discriminate.
      * apply Forall_app. split; [repeat constructor; discriminate |].
        apply Forall_app. split.
        { eapply Forall_impl; [| exact Hk].
          intros [s c] Ha x Hx. cbn in *. subst c. exact Ha. }
        { destruct (raised (run config)); repeat constructor. discriminate. }
    + destruct (VERBOSE config); repeat constructor.
Qed.

End Corners.

(** ** Which batches did what *)

Section Batches.

Context {O : Opaque} {F : Framework}.

Variable config : Config.

Lemma batches_where_app p e (a b : list entry) :
  batches_where p e (a ++ b) = batches_where p e a ++ batches_where p e b.
Proof.
  induction a as [| x a IH]; [reflexivity |].
  cbn. destruct (batch_index_in p e x); cbn; now rewrite IH.
Qed.

Lemma batches_where_other p e (l : list entry) :
  Forall (fun b => ~ in_epoch e b) l -> batches_where p e l = [].
Proof.
  induction 1 as [| [s c] l Hx _ IH]; [reflexivity |].
  cbn. unfold batch_index_in. cbn.
  destruct s; try exact IH.
  destruct (epoch =? e) eqn:E; [| exact IH].
  apply Z.eqb_eq in E. now destruct Hx.
Qed.

Lemma batches_where_epoch_level p e (l : list entry) :
  Forall (fun b => exists e', fst b = InEpoch e') l ->
  batches_where p e l = [].
Proof.
  induction 1 as [| [s c] l (e' & Hx) _ IH]; [reflexivity |].
  cbn in Hx. subst s. exact IH.
Qed.

(** The batches of a loop that ended normally, told apart by what each
    batch recorded. *)
Lemma batches_where_loop p (f : Z -> bool) train_dataloader e xs t :
  (forall i seg,
     batch_run config train_dataloader e i seg None ->
     batches_where p e seg = if f i then [i] else []) ->
  loop_run (batch_run config train_dataloader e) xs t None ->
  batches_where p e t = filter f xs.
Proof.
  intros Hone H. remember None as o eqn:Ho. revert Ho.
  induction H as [| i rest t1 t2 o Hstep Hrest IH | i rest t x Hstep];
    intros Ho; subst; [reflexivity | | discriminate].
  rewrite batches_where_app, (IH Hone eq_refl), (Hone _ _ Hstep). cbn.
  now destruct (f i).
Qed.

Lemma batches_where_epoch p (f : Z -> bool) train_dataloader e seg :
  (forall i seg,
     batch_run config train_dataloader e i seg None ->
     batches_where p e seg = if f i then [i] else []) ->
  epoch_run config train_dataloader e seg None ->
  batches_where p e seg = filter f (steps train_dataloader).
Proof.
  intros Hone Hseg.
  destruct (epoch_run_parts config _ _ _ _ Hseg)
    as (t & ob & tail & -> & Hloop & Htail & Hob).
  destruct ob as [x |]; [now destruct (Hob x eq_refl) |].
  rewrite !batches_where_app.
  rewrite (batches_where_loop p f _ _ _ _ Hone Hloop).
  rewrite (batches_where_epoch_level p e (epoch_start e)),
    (batches_where_epoch_level p e tail).
  - now rewrite app_nil_r.
  - eapply Forall_impl; [| exact Htail].
    intros a (obj & path & ->). now exists e.
  - repeat constructor; now exists e.
Qed.

Lemma batches_where_run p (f : Z -> bool) e :
  (forall i seg,
     batch_run config (built_train_dataloader config) e i seg None ->
     batches_where p e seg = if f i then [i] else []) ->
  start_epoch config <= e < NUM_EPOCHS config ->
  raised (run config) = None
  \/ (exists e', e < e'
        /\ In (InEpoch e', EngineTrain) (journal (final (run config)))) ->
  batches_where p e (journal (final (run config)))
  = filter f (steps (built_train_dataloader config)).
Proof.
  intros Hone Hrange Hdone.
  destruct (completed_epoch config e Hrange Hdone)
    as (before & seg & after & -> & Hseg & Hb & Ha).
  rewrite !batches_where_app.
  rewrite (batches_where_other p e before Hb),
    (batches_where_other p e after Ha), app_nil_r.
  now apply (batches_where_epoch p f (built_train_dataloader config)).
Qed.

Lemma trained_batch train_dataloader e i seg :
  batch_run config train_dataloader e i seg None ->
  exists loss,
    seg = lr_calls config train_dataloader e i
          ++ forward_call config e i loss :: update_calls config e i loss.
Proof. intros H. inversion H. eauto. Qed.

Lemma filter_all {A : Type} (l : list A) : filter (fun _ => true) l = l.
Proof. induction l as [| x l IH]; cbn; [reflexivity | now rewrite IH]. Qed.

Lemma ceil_succ k n :
  0 < k -> 0 <= n ->
  (n + 1 + k - 1) / k
  = (n + k - 1) / k + (if n mod k =? 0 then 1 else 0).
Proof.
  intros Hk Hn.
  pose proof (Z.div_mod n k ltac:(lia)) as Hdm.
  pose proof (Z.mod_pos_bound n k Hk) as Hb.
  destruct (n mod k =? 0) eqn:E.
  - apply Z.eqb_eq in E.
    assert ((n + k - 1) / k = n / k) as ->
      by (symmetry; apply Z.div_unique_pos with (r := k - 1); lia).
    symmetry. apply Z.div_unique_pos with (r := 0); lia.
  - apply Z.eqb_neq in E.
    assert ((n + k - 1) / k = n / k + 1) as ->
      by (symmetry; apply Z.div_unique_pos with (r := n mod k - 1); lia).
    symmetry. apply Z.div_unique_pos with (r := n mod k); lia.
Qed.

Lemma count_openings k n :
  0 < k ->
  Z.of_nat (List.length
              (filter (fun i => i mod k =? 0) (map Z.of_nat (seq 0 n))))
  = (Z.of_nat n + k - 1) / k.
Proof.
  intros Hk. induction n as [| n IH].
  - cbn. symmetry. apply Z.div_small. lia.
  - rewrite seq_S, map_app, filter_app, length_app, Nat2Z.inj_add, IH.
    cbn [map filter Nat.add].
    rewrite Nat2Z.inj_succ, <- Z.add_1_r.
    rewrite (ceil_succ k (Z.of_nat n)) by lia.
    destruct (Z.of_nat n mod k =? 0); reflexivity.
Qed.

(** X10. In an epoch that reached its end (the run returned, or a later
    epoch was entered), every batch of the loader got one forward pass and
    one call to the loss scaler, in the order [0, 1, ..., len - 1] of the
    loader: none is skipped, none is repeated. *)
Theorem batches_in_loader_order (e : Z) :
  start_epoch config <= e < NUM_EPOCHS config ->
  raised (run config) = None
  \/ (exists e', e < e'
        /\ In (InEpoch e', EngineTrain) (journal (final (run config)))) ->
  batches_where is_forward e (journal (final (run config)))
  = map Z.of_nat (seq 0 (loader_len (built_train_dataloader config)))
  /\ batches_where is_scaler_call e (journal (final (run config)))
     = map Z.of_nat (seq 0 (loader_len (built_train_dataloader config))).
Proof.
  intros Hrange Hdone. split.
  - rewrite (batches_where_run is_forward (fun _ => true) e); try assumption.
    + apply filter_all.
    + intros i seg Hseg. destruct (trained_batch _ _ _ _ Hseg) as (loss & ->).
      unfold lr_calls, forward_call, update_calls, batch_index_in.
      destruct (i mod ACCUM_ITER config =? 0);
        destruct ((i + 1) mod ACCUM_ITER config =? 0); cbn;
        rewrite ?Z.eqb_refl; reflexivity.
  - rewrite (batches_where_run is_scaler_call (fun _ => true) e);
      try assumption.
    + apply filter_all.
    + intros i seg Hseg. destruct (trained_batch _ _ _ _ Hseg) as (loss & ->).
      unfold lr_calls, forward_call, update_calls, batch_index_in.
      destruct (i mod ACCUM_ITER config =? 0);
        destruct ((i + 1) mod ACCUM_ITER config =? 0); cbn;
        rewrite ?Z.eqb_refl; reflexivity.
Qed.

(** X11. In an epoch that reached its end, the learning rate was adjusted
    in the batches [i] with [i mod ACCUM_ITER = 0] and in no other, that
    is [ceil(len / ACCUM_ITER)] times for a window [ACCUM_ITER > 0]: the
    final partial window gets its adjustment although it gets no optimizer
    step. *)
Theorem learning_rate_adjustments_counted (e : Z) :
  0 < ACCUM_ITER config ->
  start_epoch config <= e < NUM_EPOCHS config ->
  raised (run config) = None
  \/ (exists e', e < e'
        /\ In (InEpoch e', EngineTrain) (journal (final (run config)))) ->
  batches_where is_lr_adjustment e (journal (final (run config)))
  = filter (fun i => i mod ACCUM_ITER config =? 0)
           (map Z.of_nat (seq 0 (loader_len (built_train_dataloader config))))
  /\ Z.of_nat (List.length
                 (batches_where is_lr_adjustment e
                    (journal (final (run config)))))
     = (Z.of_nat (loader_len (built_train_dataloader config))
        + ACCUM_ITER config - 1) / ACCUM_ITER config.
Proof.
  intros Hk Hrange Hdone.
  assert (batches_where is_lr_adjustment e (journal (final (run config)))
          = filter (fun i => i mod ACCUM_ITER config =? 0)
              (steps (built_train_dataloader config))) as Hadj.
  { apply batches_where_run; try assumption.
    intros i seg Hseg. destruct (trained_batch _ _ _ _ Hseg) as (loss & ->).
    unfold lr_calls, forward_call, update_calls, batch_index_in.
    destruct (i mod ACCUM_ITER config =? 0);
      destruct ((i + 1) mod ACCUM_ITER config =? 0); cbn;
      rewrite ?Z.eqb_refl; reflexivity. }
  split; [exact Hadj |].
  rewrite Hadj. unfold steps. now apply count_openings.
Qed.

End Batches.

(** ** Checkpoints within a run *)

Section Checkpoints.

Context {O : Opaque} {F : Framework}.

Variable config : Config.

(** The journal of the epoch an entry was recorded in, set apart from
    everything recorded outside that epoch. *)
Lemma epoch_segment a e :
  In a (journal (final (run config))) -> in_epoch e a ->
  exists before seg after o,
    journal (final (run config)) = before ++ seg ++ after
    /\ In a seg
    /\ epoch_run config (built_train_dataloader config) e seg o
    /\ Forall (fun b => ~ in_epoch e b) before
    /\ Forall (fun b => ~ in_epoch e b) after.
Proof.
  intros Hin He.
  destruct (run_exact config) as (t & HJ & Hrun).
  pose proof (startup_calls_kind config) as Hpre.
  assert (forall xs u o,
            loop_run (epoch_run config (built_train_dataloader config))
                     xs u o ->
            ~ In e xs -> Forall (fun b => ~ in_epoch e b) u) as Hother.
  { intros xs u o Hloop Hnot.
    eapply Forall_impl; [| exact (epochs_run_in_epoch config _ _ _ _ Hloop)].
    intros b (e' & He' & Hb) Hb'.
    apply Hnot. now rewrite (in_epoch_unique _ _ _ Hb' Hb). }
  rewrite HJ in Hin.
  apply in_app_or in Hin. destruct Hin as [Hin | Hin].
  { rewrite Forall_forall in Hpre.
    now destruct (startup_not_in_epoch e a (Hpre a Hin)). }
  apply in_app_or in Hin. destruct Hin as [Hin | Hin].
  2:{ pose proof (teardown_not_in_epoch e (raised (run config))) as Htd.
      rewrite Forall_forall in Htd. now destruct (Htd a Hin). }
  unfold epochs_run in Hrun.
  destruct (loop_run_entry _ _ _ _ _ Hrun Hin)
    as (xs1 & e' & xs2 & t1 & seg & t2 & o' &
        Hxs & -> & Ha & Hseg & Hbefore & Hafter).
  assert (e' = e) as ->.
  { pose proof (epoch_run_in_epoch config _ _ _ _ Hseg) as Hs.
    rewrite Forall_forall in Hs. exact (in_epoch_unique _ _ _ (Hs a Ha) He). }
  pose proof (range_NoDup (start_epoch config) (NUM_EPOCHS config)) as Hnd.
  rewrite Hxs in Hnd. apply NoDup_remove_2 in Hnd.
  exists (startup_calls config ++ t1), seg,
    (t2 ++ teardown (raised (run config))), o'.
  split; [rewrite HJ; now rewrite <- !app_assoc |].
  split; [exact Ha |]. split; [exact Hseg |]. split.
  - apply Forall_app. split.
    + eapply Forall_impl; [| exact Hpre]. intros b. apply startup_not_in_epoch.
    + apply (Hother _ _ _ Hbefore). intros H. apply Hnd. apply in_or_app.
      now left.
  - apply Forall_app. split; [| apply teardown_not_in_epoch].
    destruct Hafter as [[_ Hloop2] | [_ ->]]; [| constructor].
    apply (Hother _ _ _ Hloop2). intros H. apply Hnd. apply in_or_app.
    now right.
Qed.

(** A checkpoint in the journal of a run: the epoch that wrote it, whole,
    with the checkpoint at its end. *)
Lemma checkpoint_segment e obj path :
  In (InEpoch e, TorchSave obj path) (journal (final (run config))) ->
  exists before t after,
    journal (final (run config))
    = before ++ epoch_start e ++ t ++ (InEpoch e, TorchSave obj path) :: after
    /\ Forall (fun b => ~ in_epoch e b) before
    /\ Forall (fun b => ~ in_epoch e b) after
    /\ loop_run (batch_run config (built_train_dataloader config) e)
         (steps (built_train_dataloader config)) t None.
Proof.
  intros Hin.
  destruct (epoch_segment _ e Hin eq_refl)
    as (before & seg & after & o & HJ & Ha & Hseg & Hb & Haft).
  assert (forall t ob c,
            loop_run (batch_run config (built_train_dataloader config) e)
                     (steps (built_train_dataloader config)) t ob ->
            ~ In (InEpoch e, c) t) as Hbatches.
  { intros t ob c Hloop Hat.
    pose proof (batch_loop_sites config _ _ _ _ _ Hloop) as Hs.
    rewrite Forall_forall in Hs. destruct (Hs _ Hat) as (j & _ & Hj).
    discriminate. }
  exists before.
  destruct Hseg as [t x H | t x H Hc | t H Hc | t d m o sc H Hc Hd];
    apply in_app_or in Ha;
    (destruct Ha as [Ha | Ha]; [cbn in Ha; intuition discriminate |]);
    try (now destruct (Hbatches _ _ _ H Ha)).
  apply in_app_or in Ha. destruct Ha as [Ha | [Ha | []]];
    [now destruct (Hbatches _ _ _ H Ha) |].
  injection Ha as <- <-. exists t, after.
  split; [rewrite HJ; now rewrite <- !app_assoc |]. now repeat split.
Qed.

(** An epoch writes at most one checkpoint. *)
Lemma checkpoint_unique e obj path obj' path' :
  In (InEpoch e, TorchSave obj path) (journal (final (run config))) ->
  In (InEpoch e, TorchSave obj' path') (journal (final (run config))) ->
  obj' = obj /\ path' = path.
Proof.
  intros Hin Hin'.
  destruct (checkpoint_segment _ _ _ Hin)
    as (before & t & after & HJ & Hb & Haft & Hloop).
  rewrite HJ in Hin'.
  apply in_app_or in Hin'. destruct Hin' as [Hin' | Hin'].
  { rewrite Forall_forall in Hb. now destruct (Hb _ Hin'). }
  apply in_app_or in Hin'. destruct Hin' as [Hin' | Hin'].
  { cbn in Hin'. intuition discriminate. }
  apply in_app_or in Hin'. destruct Hin' as [Hin' | [Hin' | Hin']].
  - pose proof (batch_loop_sites config _ _ _ _ _ Hloop) as Hs.
    rewrite Forall_forall in Hs. destruct (Hs _ Hin') as (j & _ & Hj).
    discriminate.
  - injection Hin' as <- <-. now split.
  - rewrite Forall_forall in Haft. now destruct (Haft _ Hin').
Qed.

(** X12. A checkpoint is the last thing its epoch records, and it is
    written once all the batches of the loader went through the loss
    scaler: nothing of the epoch follows it in the journal, every batch
    index precedes it, and the epoch has no other checkpoint. *)
Theorem checkpoint_closes_epoch (e : Z) (obj : checkpoint) (path : Path) :
  In (InEpoch e, TorchSave obj path) (journal (final (run config))) ->
  (exists before after,
     journal (final (run config))
     = before ++ (InEpoch e, TorchSave obj path) :: after
     /\ Forall (fun b => ~ in_epoch e b) after
     /\ batches_where is_scaler_call e before
        = map Z.of_nat (seq 0 (loader_len (built_train_dataloader config))))
  /\ (forall obj' path',
        In (InEpoch e, TorchSave obj' path') (journal (final (run config))) ->
        obj' = obj /\ path' = path).
Proof.
  intros Hin. split; [| intros obj' path'; now apply checkpoint_unique].
  destruct (checkpoint_segment _ _ _ Hin)
    as (before & t & after & HJ & Hb & Haft & Hloop).
  exists (before ++ epoch_start e ++ t), after.
  split; [rewrite HJ; now rewrite <- !app_assoc |].
  split; [exact Haft |].
  rewrite !batches_where_app, (batches_where_other _ _ _ Hb).
  assert (batches_where is_scaler_call e (epoch_start e) = []) as ->
    by reflexivity.
  cbn [app].
  assert (forall i seg,
            batch_run config (built_train_dataloader config) e i seg None ->
            batches_where is_scaler_call e seg
            = if (fun _ : Z => true) i then [i] else []) as Hone.
  { intros i seg Hs. destruct (trained_batch config _ _ _ _ Hs) as (loss & ->).
    unfold lr_calls, forward_call, update_calls, batch_index_in.
    destruct (i mod ACCUM_ITER config =? 0);
      destruct ((i + 1) mod ACCUM_ITER config =? 0); cbn;
      rewrite ?Z.eqb_refl; reflexivity. }
  rewrite (batches_where_loop config is_scaler_call (fun _ => true)
             _ _ _ _ Hone Hloop).
  apply filter_all.
Qed.

Lemma string_length_app (a b : string) :
  String.length (a ++ b) = (String.length a + String.length b)%nat.
Proof. induction a as [| c a IH]; cbn; [reflexivity | now rewrite IH]. Qed.

Lemma string_app_inv_head (p a b : string) :
  (p ++ a = p ++ b)%string -> a = b.
Proof.
  induction p as [| c p IH]; cbn; [easy |].
  intros H. injection H as H. now apply IH.
Qed.

Lemma string_app_inv_tail (a b s : string) :
  (a ++ s = b ++ s)%string -> a = b.
Proof.
  revert b. induction a as [| c a IH]; intros [| d b] H; cbn in H.
  - reflexivity.
  - apply (f_equal String.length) in H. cbn in H.
    rewrite string_length_app in H. lia.
  - apply (f_equal String.length) in H. cbn in H.
    rewrite string_length_app in H. lia.
  - injection H as -> H. f_equal. now apply IH.
Qed.

(** The decimal rendering of an epoch tells the epoch. *)
Lemma str_int_inj n m : str_int n = str_int m -> n = m.
Proof.
  unfold str_int. intros H.
  apply (f_equal NilZero.int_of_string) in H.
  rewrite !NilZero.isi in H.
  - injection H as H. now apply to_int_inj.
  - destruct m; cbn; try discriminate.
    intros E. injection E as E. now apply Unsigned.to_uint_nonnil in E.
  - destruct m; cbn; try discriminate.
    intros E. injection E as E. now apply Unsigned.to_uint_nonnil in E.
  - destruct n; cbn; try discriminate.
    intros E. injection E as E. now apply Unsigned.to_uint_nonnil in E.
  - destruct n; cbn; try discriminate.
    intros E. injection E as E. now apply Unsigned.to_uint_nonnil in E.
Qed.

(** X13. The checkpoint path tells the output directory and the epoch
    apart, so the checkpoints of different epochs never share a file; and
    within a run no file is written twice: two checkpoints recorded for
    the same path are one and the same. *)
Theorem checkpoint_files_distinct :
  (forall d d' e e',
     joinpath d ("checkpoint-" ++ str_int e ++ ".pth")%string
     = joinpath d' ("checkpoint-" ++ str_int e' ++ ".pth")%string ->
     d = d' /\ e = e')
  /\ (forall s s' obj obj' path,
        In (s, TorchSave obj path) (journal (final (run config))) ->
        In (s', TorchSave obj' path) (journal (final (run config))) ->
        s = s' /\ obj = obj').
Proof.
  assert (forall d d' e e',
            joinpath d ("checkpoint-" ++ str_int e ++ ".pth")%string
            = joinpath d' ("checkpoint-" ++ str_int e' ++ ".pth")%string ->
            d = d' /\ e = e') as Hinj.
  { unfold joinpath. intros d d' e e' H.
    apply app_inj_tail in H. destruct H as [-> H]. split; [reflexivity |].
    apply string_app_inv_head in H. apply string_app_inv_tail in H.
    now apply str_int_inj. }
  split; [exact Hinj |].
  intros s s' obj obj' path Hin Hin'.
  destruct (torch_save_entry config _ _ _ Hin)
    as (e & d & m & o & sc & -> & _ & Hd & _ & _ & Hpath).
  destruct (torch_save_entry config _ _ _ Hin')
    as (e' & d' & m' & o' & sc' & -> & _ & Hd' & _ & _ & Hpath').
  rewrite Hpath in Hpath'. unfold checkpoint_path in Hpath'.
  destruct (Hinj _ _ _ _ Hpath') as [_ <-].
  split; [reflexivity |].
  now destruct (checkpoint_unique _ _ _ _ _ Hin' Hin).
Qed.

End Checkpoints.

(** ** Windows of any sign *)

Section Windows.

Context {O : Opaque} {F : Framework}.

Variable config : Config.

(** Python's [%] is zero for a divisor and for its opposite alike. *)
Lemma mod_abs_zero a k : k <> 0 -> (a mod k =? 0) = (a mod Z.abs k =? 0).
Proof.
  intros Hk.
  destruct (Z.eqb_spec (a mod k) 0) as [E | E];
    destruct (Z.eqb_spec (a mod Z.abs k) 0) as [E' | E']; try reflexivity.
  - destruct E'. apply Z.mod_divide; [lia |].
    apply Z.divide_abs_l. now apply Z.mod_divide.
  - destruct E. apply Z.mod_divide; [exact Hk |].
    apply Z.divide_abs_l. apply Z.mod_divide; [lia | exact E'].
Qed.

(** X14. The window is not required to be positive: for any
    [ACCUM_ITER <> 0] an epoch that reached its end made
    [len / |ACCUM_ITER|] optimizer steps (floor division), so a negative
    window steps as often as its absolute value. *)
Theorem steps_counted_for_any_window (e : Z) :
  ACCUM_ITER config <> 0 ->
  start_epoch config <= e < NUM_EPOCHS config ->
  raised (run config) = None
  \/ (exists e', e < e'
        /\ In (InEpoch e', EngineTrain) (journal (final (run config)))) ->
  Z.of_nat (steps_taken e (journal (final (run config))))
  = Z.of_nat (loader_len (built_train_dataloader config))
    / Z.abs (ACCUM_ITER config).
Proof.
  intros Hk Hrange Hdone.
  destruct (completed_epoch config e Hrange Hdone)
    as (before & seg & after & -> & Hseg & Hb & Ha).
  rewrite !steps_taken_app.
  rewrite (steps_taken_other e before Hb), (steps_taken_other e after Ha).
  destruct (epoch_run_parts config _ _ _ _ Hseg)
    as (t & ob & tail & -> & Hloop & Htail & Hob).
  destruct ob as [x |]; [now destruct (Hob x eq_refl) |].
  rewrite !steps_taken_app, (steps_taken_batches config _ _ _ _ Hloop).
  assert (steps_taken e tail = 0%nat) as ->.
  { clear Hseg Hob. unfold steps_taken.
    induction Htail as [| b tail (obj & path & ->) _ IH];
      [reflexivity | exact IH]. }
  rewrite (filter_ext _ (fun i => (i + 1) mod Z.abs (ACCUM_ITER config) =? 0))
    by (intros i; now apply mod_abs_zero).
  unfold steps. cbn. rewrite !Nat.add_0_r. apply count_windows. lia.
Qed.

End Windows.

(** ** What the checkpoint interval does not reach *)

Section Interval.

Context {O : Opaque} {F : Framework}.

Variable config : Config.

Lemma bind_ext {S A B : Type} (m m' : M S A) (k k' : A -> M S B) :
  (forall s, m s = m' s) -> (forall a s, k a s = k' a s) ->
  forall s, bind m k s = bind m' k' s.
Proof.
  intros Hm Hk s. unfold bind. rewrite Hm.
  destruct (m' s) as [a s' | x s']; [apply Hk | reflexivity].
Qed.

Lemma for_each_ext {S X : Type} (xs : list X) (f g : X -> M S unit) :
  (forall x s, f x s = g x s) ->
  forall s, for_each xs f s = for_each xs g s.
Proof.
  intros H. induction xs as [| x xs IH]; intros s; cbn; [reflexivity |].
  apply bind_ext; [apply H | intros _; apply IH].
Qed.

Lemma epoch_checkpoint_without_dir (cfg : Config) e :
  OUTPUT_DIR cfg = None -> epoch_checkpoint cfg e = ret tt.
Proof. intros H. unfold epoch_checkpoint. now rewrite H. Qed.

Lemma train_without_dir c train_dataloader w :
  OUTPUT_DIR config = None ->
  train (with_CHECKPOINT_INTERVAL c config) train_dataloader w
  = train config train_dataloader w.
Proof.
  intros H. unfold train.
  apply bind_ext; [reflexivity |]. intros start_epoch w1.
  apply bind_ext; [reflexivity |]. intros _ w2.
  apply bind_ext; [| reflexivity].
  apply for_each_ext. intros e w3. unfold epoch_body.
  rewrite (epoch_checkpoint_without_dir (with_CHECKPOINT_INTERVAL c config) e H).
  rewrite (epoch_checkpoint_without_dir config e H).
  reflexivity.
Qed.

(** X15. Without an output directory the checkpoint interval is never
    read: whatever [CHECKPOINT_INTERVAL] is, zero included, the run ends
    the same way with the same journal. *)
Theorem checkpoint_interval_unused_without_output_dir (c : Z) :
  OUTPUT_DIR config = None ->
  run (with_CHECKPOINT_INTERVAL c config) = run config.
Proof.
  intros H. unfold run, main, init_global_states.
  unfold bind, modify.
  rewrite (init_engine_exact (with_CHECKPOINT_INTERVAL c config)
             (set_VERBOSE (VERBOSE config) process_start) eq_refl).
  rewrite (init_engine_exact config
             (set_VERBOSE (VERBOSE config) process_start) eq_refl).
  cbv beta iota. unfold with_objects.
  rewrite (train_without_dir c _ _ H).
  reflexivity.
Qed.

End Interval.

(** ** More sample runs *)

(** A window of zero batches: the first batch raises. *)
Lemma zero_accum_iter_raises_witness :
  ACCUM_ITER zero_window = 0
  /\ @loader_len scalar_data steady
       (@built_train_dataloader scalar_data zero_window) <> 0%nat
  /\ @start_epoch scalar_data steady zero_window < NUM_EPOCHS zero_window
  /\ raised (@run scalar_data steady zero_window) = Some ZeroDivisionError.
Proof.
  assert (ACCUM_ITER zero_window = 0) as H1 by reflexivity.
  assert (@loader_len scalar_data steady
            (@built_train_dataloader scalar_data zero_window) <> 0%nat)
    as H2 by (vm_compute; discriminate).
  assert (@start_epoch scalar_data steady zero_window < NUM_EPOCHS zero_window)
    as H3 by reflexivity.
  split; [exact H1 |]. split; [exact H2 |]. split; [exact H3 |].
  exact (proj1 (@zero_accum_iter_raises scalar_data steady zero_window
                  H1 H2 H3)).
Defined.

(** Resumed at epoch 1 with one epoch to make in all: the run returns. *)
Lemma no_epoch_left_returns_witness :
  NUM_EPOCHS resumed_past_the_end
  <= @start_epoch scalar_data steady resumed_past_the_end
  /\ raised (@run scalar_data steady resumed_past_the_end) = None.
Proof.
  assert (NUM_EPOCHS resumed_past_the_end
          <= @start_epoch scalar_data steady resumed_past_the_end)
    as H by (vm_compute; discriminate).
  split; [exact H |].
  exact (proj1 (@no_epoch_left_returns scalar_data steady
                  resumed_past_the_end H)).
Defined.

(** An interval of zero: the division by zero comes from the
    configuration. *)
Lemma zero_division_only_from_config_witness :
  raised (@run scalar_data steady zero_interval) = Some ZeroDivisionError
  /\ (ACCUM_ITER zero_interval = 0
      \/ (OUTPUT_DIR zero_interval <> None
          /\ CHECKPOINT_INTERVAL zero_interval = 0)).
Proof.
  assert (raised (@run scalar_data steady zero_interval)
          = Some ZeroDivisionError) as H by (vm_compute; reflexivity).
  split; [exact H |].
  exact (@zero_division_only_from_config scalar_data steady zero_interval H).
Defined.

(** The diverging sample exits, and a forward pass of it returned a loss
    that is not finite. *)
Lemma exit_iff_divergence_witness :
  raised (@run scalar_data diverging sample_config) = Some (SystemExit 1)
  /\ exists e i m loss,
       In (InBatch e i, @ModelForward scalar_data m loss)
          (journal (final (@run scalar_data diverging sample_config)))
       /\ isfinite (@item scalar_data diverging loss) = false.
Proof.
  assert (raised (@run scalar_data diverging sample_config)
          = Some (SystemExit 1)) as H by (vm_compute; reflexivity).
  split; [exact H |].
  exact (proj1 (proj1 (proj2 (@exit_iff_divergence scalar_data diverging
                                sample_config))) H).
Defined.

(** The steady sample returns, and logs its training time. *)
Lemma training_time_logged_iff_returned_witness :
  raised (@run scalar_data steady sample_config) = None
  /\ In (Teardown, @LoggerInfo scalar_data "Training time")
        (journal (final (@run scalar_data steady sample_config))).
Proof.
  assert (raised (@run scalar_data steady sample_config) = None) as H
    by (vm_compute; reflexivity).
  split; [exact H |].
  exact (proj2 (proj1 (@training_time_logged_iff_returned scalar_data steady
                         sample_config)) H).
Defined.

(** Without batches and without an output directory, a window and an
    interval of zero do no harm. *)
Lemma empty_loader_runs_empty_epochs_witness :
  @loader_len scalar_data idle
    (@built_train_dataloader scalar_data no_output) = 0%nat
  /\ raised (@run scalar_data idle no_output) = None.
Proof.
  assert (@loader_len scalar_data idle
            (@built_train_dataloader scalar_data no_output) = 0%nat) as H
    by reflexivity.
  split; [exact H |].
  exact (proj1 (proj2 (proj2 (@empty_loader_runs_empty_epochs scalar_data idle
                                no_output H))
                  (or_introl eq_refl))).
Defined.

(** An interval of zero: the first epoch is the only one entered. *)
Lemma zero_checkpoint_interval_raises_witness :
  OUTPUT_DIR zero_interval <> None
  /\ CHECKPOINT_INTERVAL zero_interval = 0
  /\ epochs_entered (journal (final (@run scalar_data steady zero_interval)))
     = [@start_epoch scalar_data steady zero_interval].
Proof.
  assert (OUTPUT_DIR zero_interval <> None) as H1
    by (vm_compute; discriminate).
  assert (CHECKPOINT_INTERVAL zero_interval = 0) as H2 by reflexivity.
  split; [exact H1 |]. split; [exact H2 |].
  exact (proj1 (proj2 (@zero_checkpoint_interval_raises scalar_data steady
                         zero_interval H1 H2 eq_refl))).
Defined.

(** The resumed sample is verbose: its journal begins with the lines of
    the factories. *)
Lemma verbose_gates_the_log_witness :
  VERBOSE resumed_config = true
  /\ exists rest,
       journal (final (@run scalar_data steady resumed_config))
       = @factory_log scalar_data ++ rest.
Proof.
  assert (VERBOSE resumed_config = true) as H by reflexivity.
  split; [exact H |].
  exact (proj2 (@verbose_gates_the_log scalar_data steady resumed_config) H).
Defined.

(** The load of the resumed sample. *)
Lemma load_model_only_on_resume_witness :
  In (Startup,
      @MiscLoadModel scalar_data
        {| args_resume := "out/checkpoint-0.pth"; args_start_epoch := 1 |})
     (journal (final (@run scalar_data steady resumed_config)))
  /\ RESUME resumed_config = true.
Proof.
  assert (In (Startup,
              @MiscLoadModel scalar_data
                {| args_resume := "out/checkpoint-0.pth";
                   args_start_epoch := 1 |})
             (journal (final (@run scalar_data steady resumed_config))))
    as H by find_entry.
  split; [exact H |].
  exact (proj1 (proj1 (@load_model_only_on_resume scalar_data steady
                         resumed_config) _ _ H)).
Defined.

(** The forward passes of the first epoch of the steady sample. *)
Lemma batches_in_loader_order_witness :
  @start_epoch scalar_data steady sample_config <= 0 < NUM_EPOCHS sample_config
  /\ batches_where is_forward 0
       (journal (final (@run scalar_data steady sample_config)))
     = map Z.of_nat
         (seq 0 (@loader_len scalar_data steady
                   (@built_train_dataloader scalar_data sample_config))).
Proof.
  assert (@start_epoch scalar_data steady sample_config <= 0
          < NUM_EPOCHS sample_config) as H
    by (split; [discriminate | reflexivity]).
  assert (raised (@run scalar_data steady sample_config) = None) as Hr
    by (vm_compute; reflexivity).
  split; [exact H |].
  exact (proj1 (@batches_in_loader_order scalar_data steady sample_config 0 H
                  (or_introl Hr))).
Defined.

(** Three batches in windows of two: two rate adjustments. *)
Lemma learning_rate_adjustments_counted_witness :
  0 < ACCUM_ITER sample_config
  /\ Z.of_nat (List.length
                 (batches_where is_lr_adjustment 0
                    (journal (final (@run scalar_data steady sample_config)))))
     = (Z.of_nat (@loader_len scalar_data steady
                    (@built_train_dataloader scalar_data sample_config))
        + ACCUM_ITER sample_config - 1) / ACCUM_ITER sample_config.
Proof.
  assert (0 < ACCUM_ITER sample_config) as H by reflexivity.
  split; [exact H |].
  assert (@start_epoch scalar_data steady sample_config <= 0
          < NUM_EPOCHS sample_config) as Hrange
    by (split; [discriminate | reflexivity]).
  assert (raised (@run scalar_data steady sample_config) = None) as Hr
    by (vm_compute; reflexivity).
  exact (proj2 (@learning_rate_adjustments_counted scalar_data steady
                  sample_config 0 H Hrange (or_introl Hr))).
Defined.

(** The last epoch of the steady sample has one checkpoint. *)
Lemma checkpoint_closes_epoch_witness :
  In (InEpoch 2, TorchSave sample_checkpoint (checkpoint_path ["out"%string] 2))
     (journal (final (@run scalar_data steady sample_config)))
  /\ forall obj' path',
       In (InEpoch 2, TorchSave obj' path')
          (journal (final (@run scalar_data steady sample_config))) ->
       obj' = sample_checkpoint /\ path' = checkpoint_path ["out"%string] 2.
Proof.
  assert (In (InEpoch 2,
              TorchSave sample_checkpoint (checkpoint_path ["out"%string] 2))
             (journal (final (@run scalar_data steady sample_config))))
    as H by find_entry.
  split; [exact H |].
  exact (proj2 (@checkpoint_closes_epoch scalar_data steady sample_config
                  2 sample_checkpoint (checkpoint_path ["out"%string] 2) H)).
Defined.

(** The file [out/checkpoint-2.pth] of the steady sample is written once,
    after the last epoch. *)
Lemma checkpoint_files_distinct_witness :
  In (InEpoch 2, TorchSave sample_checkpoint (checkpoint_path ["out"%string] 2))
     (journal (final (@run scalar_data steady sample_config)))
  /\ forall s obj,
       In (s, TorchSave obj (checkpoint_path ["out"%string] 2))
          (journal (final (@run scalar_data steady sample_config))) ->
       s = InEpoch 2 /\ obj = sample_checkpoint.
Proof.
  assert (In (InEpoch 2,
              TorchSave sample_checkpoint (checkpoint_path ["out"%string] 2))
             (journal (final (@run scalar_data steady sample_config))))
    as H by find_entry.
  split; [exact H |].
  intros s obj Hin.
  exact (proj2 (@checkpoint_files_distinct scalar_data steady sample_config)
           s (InEpoch 2) obj sample_checkpoint
           (checkpoint_path ["out"%string] 2) Hin H).
Defined.

(** Three batches in windows of minus two: one optimizer step. *)
Lemma steps_counted_for_any_window_witness :
  ACCUM_ITER negative_window <> 0
  /\ Z.of_nat (steps_taken 0
                 (journal (final (@run scalar_data steady negative_window))))
     = Z.of_nat (@loader_len scalar_data steady
                   (@built_train_dataloader scalar_data negative_window))
       / Z.abs (ACCUM_ITER negative_window).
Proof.
  assert (ACCUM_ITER negative_window <> 0) as H by (vm_compute; discriminate).
  split; [exact H |].
  apply (@steps_counted_for_any_window scalar_data steady negative_window 0 H).
  - split; [discriminate | reflexivity].
  - left. vm_compute. reflexivity.
Defined.

(** Without an output directory an interval of five runs as an interval of
    zero. *)
Lemma checkpoint_interval_unused_without_output_dir_witness :
  OUTPUT_DIR no_output_windowed = None
  /\ @run scalar_data steady (with_CHECKPOINT_INTERVAL 5 no_output_windowed)
     = @run scalar_data steady no_output_windowed.
Proof.
  assert (OUTPUT_DIR no_output_windowed = None) as H by reflexivity.
  split; [exact H |].
  exact (@checkpoint_interval_unused_without_output_dir scalar_data steady
           no_output_windowed 5 H).
Defined.
